(** * Message collection on a channel, and role fetching

  A shallow embedding of two classes of the library:

  - [MessageCollector] (the message collection policy): its constructor
    with the listeners it registers on the client, [collect], [dispose],
    the [endReason] getter and the two cascading-deletion handlers;
  - [RoleManager], for its [fetch] method.

  JavaScript objects are records, methods are functions that take the
  receiver's state and return the new one, [null]/[undefined] is [None].
  Counters and numeric options are mathematical integers. *)

From Stdlib Require Import List String ZArith Bool Lia.
Import ListNotations.
Open Scope string_scope.
Open Scope Z_scope.
Open Scope list_scope.

(** A snowflake is the textual identity of a message, channel, guild or role. *)
Definition Snowflake := string.

(** ** JavaScript values used by the two classes *)

Module JS.

(** Truthiness of an optional number: [undefined] and [0] are falsy. *)
Definition truthy_num (o : option Z) : bool :=
  match o with
  | Some n => negb (n =? 0)
  | None => false
  end.

(** Truthiness of an optional string: [undefined] and the empty string
    are falsy. *)
Definition truthy_str (o : option string) : bool :=
  match o with
  | Some s => negb (String.eqb s EmptyString)
  | None => false
  end.

(** [a >= b] where [b] may be [undefined] (the comparison is then false). *)
Definition ge (a : Z) (b : option Z) : bool :=
  match b with
  | Some n => a >=? n
  | None => false
  end.

(** [a === b] on numbers where [b] may be [undefined]. *)
Definition strict_eq_num (a : Z) (b : option Z) : bool :=
  match b with
  | Some n => a =? n
  | None => false
  end.

(** [a === b] on strings where [b] may be [undefined]. *)
Definition strict_eq_str (a : string) (b : option string) : bool :=
  match b with
  | Some s => String.eqb a s
  | None => false
  end.

(** A default parameter value: [undefined] selects the default. *)
Definition default {A : Type} (d : A) (o : option A) : A :=
  match o with
  | Some a => a
  | None => d
  end.

End JS.

(** ** Collection: the insertion-ordered map keyed by snowflake *)

Module Collection.

Section WithValue.
Context {V : Type}.

Definition t := list (Snowflake * V).

Definition empty : t := [].

Fixpoint get (k : Snowflake) (c : t) : option V :=
  match c with
  | [] => None
  | (k', v) :: c' => if String.eqb k k' then Some v else get k c'
  end.

Definition has (k : Snowflake) (c : t) : bool :=
  match get k c with
  | Some _ => true
  | None => false
  end.

(** A present key keeps its position and takes the new value; a new key
    goes last. *)
Fixpoint set (k : Snowflake) (v : V) (c : t) : t :=
  match c with
  | [] => [(k, v)]
  | (k', v') :: c' =>
      if String.eqb k k' then (k, v) :: c' else (k', v') :: set k v c'
  end.

Definition delete (k : Snowflake) (c : t) : t :=
  filter (fun e => negb (String.eqb k (fst e))) c.

Definition size (c : t) : Z := Z.of_nat (List.length c).

Definition values (c : t) : list V := map snd c.

End WithValue.

Arguments t : clear implicits.

End Collection.

(** ** Guilds, channels and messages *)

Module Guild.
Record t := mk { id : Snowflake }.
End Guild.

Module Channel.
(** A text-based channel; a direct-message channel has no guild. *)
Record t := mk { id : Snowflake; guild : option Guild.t }.
End Channel.

Module Message.
Record t := mk { id : Snowflake; channel : Channel.t; content : string }.
End Message.

(** ** The client as an event source *)

(** The event names of [Constants.Events] that the collector uses.  The
  table itself is not part of the sources at hand; the five names are
  taken to be pairwise distinct, every other name is [OTHER]. *)
Module Events.

Inductive t :=
  | MESSAGE_CREATE
  | MESSAGE_DELETE
  | MESSAGE_BULK_DELETE
  | CHANNEL_DELETE
  | GUILD_DELETE
  | OTHER (name : string).

Definition eqb (a b : t) : bool :=
  match a, b with
  | MESSAGE_CREATE, MESSAGE_CREATE => true
  | MESSAGE_DELETE, MESSAGE_DELETE => true
  | MESSAGE_BULK_DELETE, MESSAGE_BULK_DELETE => true
  | CHANNEL_DELETE, CHANNEL_DELETE => true
  | GUILD_DELETE, GUILD_DELETE => true
  | OTHER x, OTHER y => String.eqb x y
  | _, _ => false
  end.

End Events.

(** A listener is a function object.  The functions a collector registers
  are created per instance ([bind], a closure), so a listener is known by
  the instance that owns it and by which of its functions it is. *)
Module Listener.

Inductive fn :=
  | handleCollect
  | handleDispose
  | bulkDeleteListener
  | _handleChannelDeletion
  | _handleGuildDeletion
  | foreign (name : string).

Definition fn_eqb (a b : fn) : bool :=
  match a, b with
  | handleCollect, handleCollect => true
  | handleDispose, handleDispose => true
  | bulkDeleteListener, bulkDeleteListener => true
  | _handleChannelDeletion, _handleChannelDeletion => true
  | _handleGuildDeletion, _handleGuildDeletion => true
  | foreign x, foreign y => String.eqb x y
  | _, _ => false
  end.

Record t := mk { owner : nat; code : fn }.

Definition eqb (a b : t) : bool :=
  Nat.eqb (owner a) (owner b) && fn_eqb (code a) (code b).

End Listener.

Module Client.

Record t := mk {
  listeners : list (Events.t * Listener.t);
  maxListeners : Z
  }.

Definition entry_eqb (a b : Events.t * Listener.t) : bool :=
  Events.eqb (fst a) (fst b) && Listener.eqb (snd a) (snd b).

(** [emitter.on(event, listener)]: the listener goes to the end of the
    listener array, with no check for a previous registration. *)
Definition on (e : Events.t) (l : Listener.t) (c : t) : t :=
  mk (listeners c ++ [(e, l)]) (maxListeners c).

Fixpoint remove_first (x : Events.t * Listener.t)
    (ls : list (Events.t * Listener.t)) : list (Events.t * Listener.t) :=
  match ls with
  | [] => []
  | y :: ls' => if entry_eqb x y then ls' else y :: remove_first x ls'
  end.

(** [emitter.removeListener(event, listener)]: at most one instance is
    removed, the most recently added one. *)
Definition removeListener (e : Events.t) (l : Listener.t) (c : t) : t :=
  mk (rev (remove_first (e, l) (rev (listeners c)))) (maxListeners c).

(** Modelled from the spec: the listener-count budget of the client
    ([incrementMaxListeners] and [decrementMaxListeners] belong to the
    client class, which is not among the sources); the spec describes an
    adjustment of the budget by one around construction and teardown. *)
Definition incrementMaxListeners (c : t) : t :=
  mk (listeners c) (maxListeners c + 1).

(** Modelled from the spec: the counterpart of [incrementMaxListeners], of
    the same client class, which is not among the sources. *)
Definition decrementMaxListeners (c : t) : t :=
  mk (listeners c) (maxListeners c - 1).

(** How many listeners of instance [o] are registered. *)
Definition owned (o : nat) (c : t) : nat :=
  List.length (filter (fun e => Nat.eqb (Listener.owner (snd e)) o) (listeners c)).

Definition registered (e : Events.t) (l : Listener.t) (c : t) : bool :=
  existsb (entry_eqb (e, l)) (listeners c).

End Client.


(** ** The message collector *)

Module CollectorOptions.

(** The options of a collector: the two count limits, the caller's filter
    and the two durations (milliseconds).  An absent option is [None]. *)
Record t := mk {
  max : option Z;
  maxProcessed : option Z;
  filter : option (Message.t -> bool);
  time : option Z;
  idle : option Z
}.

End CollectorOptions.

Module MessageCollector.

(** What a collector tells its observers. *)
Inductive Notification :=
| NCollect (message : Message.t)
| NDispose (message : Message.t)
| NEnd (collected : Collection.t Message.t) (reason : string).

(** The state of one collector, together with the client it listens on.

    [self] is the identity of the instance, by which its listeners are
    recognised in the client's registry.  [terminalReason] is the reason
    recorded when the collector stops (the data model's end reason); it is
    named apart from the getter [endReason] below, which computes a reason
    from the limits.  [endListener] tells whether the one-shot listener of
    the collector's own "end" notification is still registered.  [_timeout]
    and [_idletimeout] tell whether the two timers are pending; [emitted] is
    the log of notifications, oldest first. *)
Record t := mk {
  client : Client.t;
  self : nat;
  options : CollectorOptions.t;
  channel : Channel.t;
  received : Z;
  collected : Collection.t Message.t;
  ended : bool;
  terminalReason : option string;
  endListener : bool;
  _timeout : bool;
  _idletimeout : bool;
  emitted : list Notification
}.

Definition set_client (c : Client.t) (this : t) : t :=
  mk c (self this) (options this) (channel this) (received this)
     (collected this) (ended this) (terminalReason this) (endListener this)
     (_timeout this) (_idletimeout this) (emitted this).

Definition set_received (n : Z) (this : t) : t :=
  mk (client this) (self this) (options this) (channel this) n
     (collected this) (ended this) (terminalReason this) (endListener this)
     (_timeout this) (_idletimeout this) (emitted this).

Definition set_collected (c : Collection.t Message.t) (this : t) : t :=
  mk (client this) (self this) (options this) (channel this) (received this)
     c (ended this) (terminalReason this) (endListener this)
     (_timeout this) (_idletimeout this) (emitted this).

Definition set_ended (r : string) (this : t) : t :=
  mk (client this) (self this) (options this) (channel this) (received this)
     (collected this) true (Some r) (endListener this)
     (_timeout this) (_idletimeout this) (emitted this).

Definition set_endListener (b : bool) (this : t) : t :=
  mk (client this) (self this) (options this) (channel this) (received this)
     (collected this) (ended this) (terminalReason this) b
     (_timeout this) (_idletimeout this) (emitted this).

Definition set_timers (time idle : bool) (this : t) : t :=
  mk (client this) (self this) (options this) (channel this) (received this)
     (collected this) (ended this) (terminalReason this) (endListener this)
     time idle (emitted this).

Definition emit (n : Notification) (this : t) : t :=
  mk (client this) (self this) (options this) (channel this) (received this)
     (collected this) (ended this) (terminalReason this) (endListener this)
     (_timeout this) (_idletimeout this) (emitted this ++ [n]).

(** *** The methods of the class *)

(** [collect(message)]: the message's identity when it is in the
    collector's channel, and then one more message was received. *)
Definition collect (message : Message.t) (this : t) : option Snowflake * t :=
  if negb (String.eqb (Channel.id (Message.channel message))
                      (Channel.id (channel this)))
  then (None, this)
  else (Some (Message.id message), set_received (received this + 1) this).

(** [dispose(message)]. *)
Definition dispose (message : Message.t) (this : t) : option Snowflake * t :=
  (if String.eqb (Channel.id (Message.channel message))
                 (Channel.id (channel this))
   then Some (Message.id message)
   else None,
   this).

(** The [endReason] getter. *)
Definition endReason (this : t) : option string :=
  if JS.truthy_num (CollectorOptions.max (options this))
     && JS.ge (Collection.size (collected this))
              (CollectorOptions.max (options this))
  then Some "limit"
  else if JS.truthy_num (CollectorOptions.maxProcessed (options this))
          && JS.strict_eq_num (received this)
                              (CollectorOptions.maxProcessed (options this))
  then Some "processedLimit"
  else None.

(** The five listeners the constructor puts on the client, in the order of
    registration. *)
Definition registrations (self : nat) : list (Events.t * Listener.t) :=
  [ (Events.MESSAGE_CREATE, Listener.mk self Listener.handleCollect);
    (Events.MESSAGE_DELETE, Listener.mk self Listener.handleDispose);
    (Events.MESSAGE_BULK_DELETE, Listener.mk self Listener.bulkDeleteListener);
    (Events.CHANNEL_DELETE, Listener.mk self Listener._handleChannelDeletion);
    (Events.GUILD_DELETE, Listener.mk self Listener._handleGuildDeletion) ].

(** The listener of the collector's "end" notification that the constructor
    installs with [once]: it takes the five listeners off the client and
    gives the listener budget back. *)
Definition onEnd (this : t) : t :=
  let c := client this in
  let c := Client.removeListener Events.MESSAGE_CREATE
             (Listener.mk (self this) Listener.handleCollect) c in
  let c := Client.removeListener Events.MESSAGE_DELETE
             (Listener.mk (self this) Listener.handleDispose) c in
  let c := Client.removeListener Events.MESSAGE_BULK_DELETE
             (Listener.mk (self this) Listener.bulkDeleteListener) c in
  let c := Client.removeListener Events.CHANNEL_DELETE
             (Listener.mk (self this) Listener._handleChannelDeletion) c in
  let c := Client.removeListener Events.GUILD_DELETE
             (Listener.mk (self this) Listener._handleGuildDeletion) c in
  let c := Client.decrementMaxListeners c in
  set_client c this.

(** *** The collection engine the class extends *)

(** Modelled from the spec: the emission of the "end" notification by the
    base class Collector, which is not among the sources.  The notification
    carries the accepted items and the reason; the one-shot listener
    installed by the constructor is unregistered and then run. *)
Definition emitEnd (reason : string) (this : t) : t :=
  let this := emit (NEnd (collected this) reason) this in
  if endListener this then onEnd (set_endListener false this) else this.

(** Modelled from the spec: [stop(reason)] of the base class Collector,
    which is not among the sources.  A no-op on an ended collector;
    otherwise it marks the collector ended, records the reason, cancels the
    pending timers and emits "end". *)
Definition stop (reason : string) (this : t) : t :=
  if ended this then this
  else emitEnd reason (set_timers false false (set_ended reason this)).

(** Modelled from the spec: the check made after an item was processed, in
    the base class Collector, which is not among the sources: the [endReason]
    getter is evaluated and a reason other than null terminates the
    collector. *)
Definition checkEnd (this : t) : t :=
  match endReason this with
  | Some reason => stop reason this
  | None => this
  end.

(** Modelled from the spec: [handleCollect(item)] of the base class
    Collector, which is not among the sources.  A no-op on an ended
    collector.  Otherwise [collect] decides whether the item is relevant (and
    counts it: the engine's received counter and the class's are one
    counter here); a relevant item that passes the filter is inserted and
    notified; the end reason is evaluated after every processed item. *)
Definition handleCollect (message : Message.t) (this : t) : t :=
  if ended this then this
  else
    match collect message this with
    | (None, this) => this
    | (Some id, this) =>
        let accept :=
          JS.default (fun _ => true) (CollectorOptions.filter (options this)) in
        let this :=
          if accept message
          then emit (NCollect message)
                 (set_collected (Collection.set id message (collected this)) this)
          else this in
        checkEnd this
    end.

(** Modelled from the spec: [handleDispose(item)] of the base class
    Collector, which is not among the sources.  A no-op on an ended
    collector.  Otherwise an item that [dispose] identifies and that is
    among the accepted ones is removed and notified; the received counter is
    left alone and no end condition is checked. *)
Definition handleDispose (message : Message.t) (this : t) : t :=
  if ended this then this
  else
    match dispose message this with
    | (None, this) => this
    | (Some id, this) =>
        if Collection.has id (collected this)
        then emit (NDispose message)
               (set_collected (Collection.delete id (collected this)) this)
        else this
    end.

(** *** The listeners of the class *)

(** [bulkDeleteListener], the closure of the constructor. *)
Definition bulkDeleteListener (messages : Collection.t Message.t) (this : t) : t :=
  fold_left (fun this message => handleDispose message this)
            (Collection.values messages) this.

(** [_handleChannelDeletion(channel)]. *)
Definition _handleChannelDeletion (channel' : Channel.t) (this : t) : t :=
  if String.eqb (Channel.id channel') (Channel.id (channel this))
  then stop "channelDelete" this
  else this.

(** [_handleGuildDeletion(guild)]; [this.channel.guild?.id] is undefined
    when the channel has no guild. *)
Definition _handleGuildDeletion (guild : Guild.t) (this : t) : t :=
  if JS.strict_eq_str (Guild.id guild)
       (option_map Guild.id (Channel.guild (channel this)))
  then stop "guildDelete" this
  else this.

(** Modelled from the spec: the constructor of the base class Collector,
    which is not among the sources, reached through [super(channel.client,
    options)]: it keeps the client and the options, starts with no accepted
    item, not ended and no reason recorded, and leaves a timer pending for
    each of the two durations that is set.  The validation of the options
    that the spec puts before all this is left out.  [channel] and
    [received] are the two fields of the class, which its own constructor
    assigns next. *)
Definition super (client : Client.t) (self : nat)
    (options : CollectorOptions.t) (channel : Channel.t) (received : Z) : t :=
  mk client self options channel received Collection.empty false None false
     (JS.truthy_num (CollectorOptions.time options))
     (JS.truthy_num (CollectorOptions.idle options))
     [].

(** The constructor: the base class's part, the channel and the received
    counter at zero, then the budget increment, the five registrations on
    the client and the one-shot listener of "end". *)
Definition constructor (client' : Client.t) (self' : nat)
    (channel' : Channel.t) (options' : CollectorOptions.t) : t :=
  let this := super client' self' options' channel' 0 in
  let this := set_client (Client.incrementMaxListeners (client this)) this in
  let this :=
    set_client (Client.on Events.MESSAGE_CREATE
                  (Listener.mk (self this) Listener.handleCollect)
                  (client this)) this in
  let this :=
    set_client (Client.on Events.MESSAGE_DELETE
                  (Listener.mk (self this) Listener.handleDispose)
                  (client this)) this in
  let this :=
    set_client (Client.on Events.MESSAGE_BULK_DELETE
                  (Listener.mk (self this) Listener.bulkDeleteListener)
                  (client this)) this in
  let this :=
    set_client (Client.on Events.CHANNEL_DELETE
                  (Listener.mk (self this) Listener._handleChannelDeletion)
                  (client this)) this in
  let this :=
    set_client (Client.on Events.GUILD_DELETE
                  (Listener.mk (self this) Listener._handleGuildDeletion)
                  (client this)) this in
  set_endListener true this.

(** *** What can happen to a collector *)

(** The events of the client that the collector listens to. *)
Inductive ClientEvent :=
| MessageCreate (message : Message.t)
| MessageDelete (message : Message.t)
| MessageBulkDelete (messages : Collection.t Message.t)
| ChannelDelete (channel : Channel.t)
| GuildDelete (guild : Guild.t).

(** The client emits an event: the listener of this instance runs if it is
    registered for the event. *)
Definition deliver (ev : ClientEvent) (this : t) : t :=
  let listening e f :=
    Client.registered e (Listener.mk (self this) f) (client this) in
  match ev with
  | MessageCreate m =>
      if listening Events.MESSAGE_CREATE Listener.handleCollect
      then handleCollect m this else this
  | MessageDelete m =>
      if listening Events.MESSAGE_DELETE Listener.handleDispose
      then handleDispose m this else this
  | MessageBulkDelete ms =>
      if listening Events.MESSAGE_BULK_DELETE Listener.bulkDeleteListener
      then bulkDeleteListener ms this else this
  | ChannelDelete c =>
      if listening Events.CHANNEL_DELETE Listener._handleChannelDeletion
      then _handleChannelDeletion c this else this
  | GuildDelete g =>
      if listening Events.GUILD_DELETE Listener._handleGuildDeletion
      then _handleGuildDeletion g this else this
  end.

(** Everything that reaches a collector: an event of the client, a call of
    [stop], a direct call of one of the two handlers, or a timer that
    expires (reasons "time" and "idle"). *)
Inductive Input :=
| Emit (ev : ClientEvent)
| Stop (reason : string)
| HandleCollect (message : Message.t)
| HandleDispose (message : Message.t)
| TimeoutExpires
| IdleExpires.

Definition step (this : t) (i : Input) : t :=
  match i with
  | Emit ev => deliver ev this
  | Stop reason => stop reason this
  | HandleCollect m => handleCollect m this
  | HandleDispose m => handleDispose m this
  | TimeoutExpires => if _timeout this then stop "time" this else this
  | IdleExpires => if _idletimeout this then stop "idle" this else this
  end.

Definition run (inputs : list Input) (this : t) : t :=
  fold_left step inputs this.

(** The client is shared: other parties register and remove listeners of
    their own and move the listener budget while the collector lives. *)
Inductive ClientAction :=
| On (e : Events.t) (l : Listener.t)
| RemoveListener (e : Events.t) (l : Listener.t)
| IncrementMaxListeners
| DecrementMaxListeners.

Definition act (a : ClientAction) (c : Client.t) : Client.t :=
  match a with
  | On e l => Client.on e l c
  | RemoveListener e l => Client.removeListener e l c
  | IncrementMaxListeners => Client.incrementMaxListeners c
  | DecrementMaxListeners => Client.decrementMaxListeners c
  end.

Inductive WorldInput :=
| Here (i : Input)
| Elsewhere (a : ClientAction).

Definition worldStep (this : t) (w : WorldInput) : t :=
  match w with
  | Here i => step this i
  | Elsewhere a => set_client (act a (client this)) this
  end.

Definition runWorld (ws : list WorldInput) (this : t) : t :=
  fold_left worldStep ws this.

End MessageCollector.

(** ** The role manager *)

Module RoleManager.

(** A role object as the API returns it. *)
Record RoleData := mkData { id : Snowflake; name : string }.

(** The outcome of an asynchronous method. *)
Inductive Promise (A : Type) :=
| Resolved (value : A)
| Rejected (error : string).

Arguments Resolved {A} value.
Arguments Rejected {A} error.

Section WithRole.

(** The class of the managed objects ([structures/Role]); an object is
    never falsy. *)
Variable Role : Type.

(** [add] of the base manager, which is not among the sources: from the
    role data, the cache flag and the extras (the guild) it gives the role
    object and may change the cache. *)
Variable super_add :
  RoleData -> bool -> Guild.t -> Collection.t Role -> Role * Collection.t Role.

(** The manager: its guild, its cache, and the requests sent to the API so
    far (each the guild whose roles were asked for), oldest first. *)
Record t := mk {
  guild : Guild.t;
  cache : Collection.t Role;
  requests : list Snowflake
}.

(** What [fetch] resolves to: a role or null, or a collection of roles. *)
Inductive Fetched :=
| OneRole (role : option Role)
| AllRoles (roles : Collection.t Role).

(** [add(data, cache)]. *)
Definition add (data : RoleData) (cache' : bool) (this : t) : Role * t :=
  let (role, c) := super_add data cache' (guild this) (cache this) in
  (role, mk (guild this) c (requests this)).

(** The cache check that opens [fetch]. *)
Definition existing (id' : option Snowflake) (force : bool) (this : t)
    : option Role :=
  match id' with
  | Some s =>
      if JS.truthy_str id' && negb force
      then Collection.get s (cache this)
      else None
  | None => None
  end.

(** The loop of [fetch] over the fetched data. *)
Definition addAll (data : list RoleData) (cache' : bool) (this : t)
    : Collection.t Role * t :=
  fold_left
    (fun acc role =>
       let (r, this) := add role cache' (snd acc) in
       (Collection.set (id role) r (fst acc), this))
    data (Collection.empty, this).

(** [fetch(id, cache = true, force = false)].  [response] is what the API
    answers if it is asked: an error, or the roles of the guild. *)
Definition fetch (id' : option Snowflake) (cache' force : option bool)
    (response : string + list RoleData) (this : t) : Promise Fetched * t :=
  let cache' := JS.default true cache' in
  let force := JS.default false force in
  match existing id' force this with
  | Some role => (Resolved (OneRole (Some role)), this)
  | None =>
      let this :=
        mk (guild this) (cache this) (requests this ++ [Guild.id (guild this)]) in
      match response with
      | inl error => (Rejected error, this)
      | inr data =>
          let (roles, this) := addAll data cache' this in
          match id' with
          | Some s =>
              if JS.truthy_str id'
              then (Resolved (OneRole (Collection.get s roles)), this)
              else (Resolved (AllRoles roles), this)
          | None => (Resolved (AllRoles roles), this)
          end
      end
  end.

End WithRole.

Arguments mk {Role} guild cache requests.
Arguments guild {Role} t.
Arguments cache {Role} t.
Arguments requests {Role} t.
Arguments OneRole {Role} role.
Arguments AllRoles {Role} roles.
Arguments fetch {Role} super_add id' cache' force response this.
Arguments addAll {Role} super_add data cache' this.
Arguments add {Role} super_add data cache' this.
Arguments existing {Role} id' force this.

(** A base manager that holds the role data themselves and caches a role
    under its identity when asked to; it serves to run [fetch] on concrete
    inputs. *)
Definition plain_add (data : RoleData) (cache' : bool) (g : Guild.t)
    (c : Collection.t RoleData) : RoleData * Collection.t RoleData :=
  match Collection.get (id data) c with
  | Some role => (role, c)
  | None => (data, if cache' then Collection.set (id data) data c else c)
  end.

(** Two roles, and the manager of a guild that has the first in its cache
    and has not asked the API yet. *)
Definition admin : RoleData := mkData "1" "admin".

Definition guest : RoleData := mkData "2" "guest".

Definition roles_of_g : t RoleData :=
  mk (Guild.mk "g") [("1", admin)] [].

End RoleManager.

(** ** Searching and reducing a collection *)

(** The methods of the collection class that the getters of the role
    manager use: [find], [first] and [reduce].  They iterate in insertion
    order. *)
Module CollectionSearch.

(** What a call comes to: a value, or a thrown error. *)
Inductive Outcome (A : Type) :=
| Returned (value : A)
| Threw (error : string).

Arguments Returned {A} value.
Arguments Threw {A} error.

Section WithValue.
Context {V : Type}.

(** [find(fn)]: the first value that [fn] accepts, undefined if none. *)
Fixpoint find (fn : V -> bool) (c : Collection.t V) : option V :=
  match c with
  | [] => None
  | (_, v) :: c' => if fn v then Some v else find fn c'
  end.

(** [first()]: the first value, undefined on an empty collection. *)
Definition first (c : Collection.t V) : option V :=
  match c with
  | [] => None
  | (_, v) :: _ => Some v
  end.

(** [reduce(fn, initialValue)] with an accumulator of the values' type.
    With an initial value every value is folded into it; without one
    (undefined) the first value starts the accumulator and the others are
    folded in, and an empty collection throws. *)
Definition reduce (fn : V -> V -> V) (initialValue : option V)
    (c : Collection.t V) : Outcome V :=
  match initialValue with
  | Some a => Returned (fold_left fn (Collection.values c) a)
  | None =>
      match c with
      | [] => Threw "TypeError: Reduce of empty collection with no initial value"
      | (_, v) :: c' => Returned (fold_left fn (Collection.values c') v)
      end
  end.

End WithValue.

End CollectionSearch.

(** ** The getters of the role manager *)

Module RoleManagerGetters.

(** The tags of a role as the manager reads them: the bot the role belongs
    to, and whether it is the premium subscriber role (absent or true). *)
Record RoleTags := mkTags {
  botID : option Snowflake;
  premiumSubscriberRole_tag : option bool
}.

Section WithRole.

(** The class of the roles ([structures/Role]) with what the manager reads
    of a role: its tags, null for a role without tags, and the comparison
    of positions [role.comparePositionTo(other)]. *)
Variable Role : Type.
Variable tags : Role -> option RoleTags.
Variable comparePositionTo : Role -> Role -> Z.

(** [this.client.users.resolveID(user)], of the user manager: the identity
    of the user, or null. *)
Variable UserResolvable : Type.
Variable resolveID : UserResolvable -> option Snowflake.

(** [botRoleFor(user)]. *)
Definition botRoleFor (user : UserResolvable) (this : RoleManager.t Role)
    : option Role :=
  let userID := resolveID user in
  if negb (JS.truthy_str userID) then None
  else
    CollectionSearch.find
      (fun role =>
         match tags role, userID with
         | Some t, Some u => JS.strict_eq_str u (botID t)
         | _, _ => false
         end)
      (RoleManager.cache this).

(** The [everyone] getter. *)
Definition everyone (this : RoleManager.t Role) : option Role :=
  Collection.get (Guild.id (RoleManager.guild this)) (RoleManager.cache this).

(** The [premiumSubscriberRole] getter. *)
Definition premiumSubscriberRole (this : RoleManager.t Role) : option Role :=
  CollectionSearch.find
    (fun role =>
       match tags role with
       | Some t => JS.default false (premiumSubscriberRole_tag t)
       | None => false
       end)
    (RoleManager.cache this).

(** The [highest] getter. *)
Definition highest (this : RoleManager.t Role) : CollectionSearch.Outcome Role :=
  CollectionSearch.reduce
    (fun prev role => if comparePositionTo role prev >? 0 then role else prev)
    (CollectionSearch.first (RoleManager.cache this))
    (RoleManager.cache this).

End WithRole.

Arguments botRoleFor {Role} tags {UserResolvable} resolveID user this.
Arguments everyone {Role} this.
Arguments premiumSubscriberRole {Role} tags this.
Arguments highest {Role} comparePositionTo this.

(** Roles to run the getters on: a name, a position and tags. *)
Record PlainRole := mkRole {
  role_id : Snowflake;
  position : Z;
  role_tags : option RoleTags
}.

Definition byPosition (a b : PlainRole) : Z := position a - position b.

Definition members : PlainRole := mkRole "10" 1 None.

Definition boosters : PlainRole :=
  mkRole "11" 3 (Some (mkTags None (Some true))).

Definition helper : PlainRole :=
  mkRole "12" 2 (Some (mkTags (Some "900") None)).

Definition staffed : RoleManager.t PlainRole :=
  RoleManager.mk (Guild.mk "10")
    [("10", members); ("11", boosters); ("12", helper)] [].

End RoleManagerGetters.

(** * Properties *)

Module MessageCollectorFacts.

Import MessageCollector.

(** The count limit applies: the max option is set (present and not zero)
    and at least that many items are accepted. *)
Definition countLimitReached (this : t) : Prop :=
  exists m, CollectorOptions.max (options this) = Some m /\ m <> 0
            /\ m <= Collection.size (collected this).

(** The processed limit applies: the maxProcessed option is set (present
    and not zero) and exactly that many items were received. *)
Definition processedLimitReached (this : t) : Prop :=
  exists m, CollectorOptions.maxProcessed (options this) = Some m /\ m <> 0
            /\ received this = m.

(** A collector with the given limits, number of received items and accepted
    items, for the examples. *)
Definition sample (max maxProcessed : option Z) (received : Z)
    (collected : Collection.t Message.t) : t :=
  mk (Client.mk [] 10) 0%nat
     (CollectorOptions.mk max maxProcessed None None None)
     (Channel.mk "c" (Some (Guild.mk "g"))) received collected false None true
     false false [].

Definition msg (id channel : Snowflake) : Message.t :=
  Message.mk id (Channel.mk channel (Some (Guild.mk "g"))) EmptyString.

Definition two : Collection.t Message.t :=
  [("1", msg "1" "c"); ("2", msg "2" "c")].

(** Whether a bulk removal carries a message of channel [target] whose
    identity is [k]. *)
Definition disposedBy (target : Snowflake) (l : list Message.t)
    (k : Snowflake) : bool :=
  existsb
    (fun m => String.eqb (Channel.id (Message.channel m)) target
              && String.eqb (Message.id m) k)
    l.

(** How many times the ended flag goes from false to true along a run. *)
Fixpoint endings (inputs : list Input) (this : t) : nat :=
  match inputs with
  | [] => 0%nat
  | i :: inputs =>
      ((if negb (ended this) && ended (step this i) then 1 else 0)
       + endings inputs (step this i))%nat
  end.

(** Five accepted messages of channel "c", and a bulk removal of five
    messages of which three are of channel "c". *)
Definition five : Collection.t Message.t :=
  [("1", msg "1" "c"); ("2", msg "2" "c"); ("3", msg "3" "c");
   ("4", msg "4" "c"); ("5", msg "5" "c")].

Definition bulk : Collection.t Message.t :=
  [("1", msg "1" "c"); ("8", msg "8" "d"); ("3", msg "3" "c");
   ("9", msg "9" "d"); ("5", msg "5" "c")].

(** The reason is recorded at the moment the collector ends: none while it
    runs, one from then on. *)
Definition reasonRecorded (this : t) : Prop :=
  if ended this
  then exists reason, terminalReason this = Some reason
  else terminalReason this = None.

(** The listeners of instance [s] among those of a client, in order. *)
Definition mine (s : nat) (c : Client.t) : list (Events.t * Listener.t) :=
  filter (fun e => Nat.eqb (Listener.owner (snd e)) s) (Client.listeners c).

(** An input that does not come from instance [s]: what other parties
    register or remove are listeners of their own. *)
Definition foreignTo (s : nat) (w : WorldInput) : Prop :=
  match w with
  | Elsewhere (On _ l) => Listener.owner l <> s
  | Elsewhere (RemoveListener _ l) => Listener.owner l <> s
  | _ => True
  end.

(** By how much other parties moved the listener budget. *)
Fixpoint budgetElsewhere (ws : list WorldInput) : Z :=
  match ws with
  | [] => 0
  | w :: ws =>
      match w with
      | Elsewhere IncrementMaxListeners => 1
      | Elsewhere DecrementMaxListeners => -1
      | _ => 0
      end + budgetElsewhere ws
  end.

(** How instance [s] stands on a shared client whose budget would be [b]
    without the instance. *)
Definition wiredAmong (s : nat) (b : Z) (this : t) : Prop :=
  self this = s
  /\ if ended this
     then mine s (client this) = []
          /\ Client.maxListeners (client this) = b
          /\ endListener this = false
     else mine s (client this) = registrations s
          /\ Client.maxListeners (client this) = b + 1
          /\ endListener this = true.

(** A client on which other parties listen, and a guild channel. *)
Definition busy : Client.t :=
  Client.mk
    [ (Events.MESSAGE_CREATE, Listener.mk 1 Listener.handleCollect);
      (Events.OTHER "ready", Listener.mk 2 (Listener.foreign "onReady")) ]
    10.

(** What happens around a collector on the busy client: another party
    starts listening, a message of the channel arrives, another party gives
    budget back. *)
Definition shared : list WorldInput :=
  [ Elsewhere (On Events.MESSAGE_CREATE (Listener.mk 3 (Listener.foreign "log")));
    Here (Emit (MessageCreate (msg "1" "c")));
    Elsewhere DecrementMaxListeners ].

Definition lobby : Channel.t := Channel.mk "c" (Some (Guild.mk "g")).

Definition limits (max maxProcessed : option Z) : CollectorOptions.t :=
  CollectorOptions.mk max maxProcessed None None None.

(** ** The [endReason] getter *)

Lemma set_nonzero_geb (o : option Z) (n : Z) :
  JS.truthy_num o && JS.ge n o = true
  <-> exists m, o = Some m /\ m <> 0 /\ m <= n.
Proof.
  destruct o as [m|]; cbn [JS.truthy_num JS.ge].
  - rewrite andb_true_iff, negb_true_iff, Z.eqb_neq, Z.geb_le. split.
    + intros [Hm Hn]. exists m. auto.
    + intros (m' & E & Hm & Hn). injection E as <-. auto.
  - split; [discriminate | intros (m & E & _); discriminate].
Qed.

Lemma set_nonzero_eqb (o : option Z) (n : Z) :
  JS.truthy_num o && JS.strict_eq_num n o = true
  <-> exists m, o = Some m /\ m <> 0 /\ n = m.
Proof.
  destruct o as [m|]; cbn [JS.truthy_num JS.strict_eq_num].
  - rewrite andb_true_iff, negb_true_iff, Z.eqb_neq, Z.eqb_eq. split.
    + intros [Hm Hn]. exists m. auto.
    + intros (m' & E & Hm & Hn). injection E as <-. auto.
  - split; [discriminate | intros (m & E & _); discriminate].
Qed.

(** The getter, by the two conditions. *)
Lemma endReason_cases (this : t) :
  (countLimitReached this /\ endReason this = Some "limit")
  \/ (~ countLimitReached this /\ processedLimitReached this
      /\ endReason this = Some "processedLimit")
  \/ (~ countLimitReached this /\ ~ processedLimitReached this
      /\ endReason this = None).
Proof.
  unfold endReason, countLimitReached, processedLimitReached.
  destruct (JS.truthy_num (CollectorOptions.max (options this))
            && JS.ge (Collection.size (collected this))
                 (CollectorOptions.max (options this))) eqn:L.
  - left. split; [apply set_nonzero_geb, L | reflexivity].
  - right.
    assert (~ (exists m, CollectorOptions.max (options this) = Some m
                         /\ m <> 0 /\ m <= Collection.size (collected this)))
      as NL by (rewrite <- set_nonzero_geb, L; discriminate).
    destruct (JS.truthy_num (CollectorOptions.maxProcessed (options this))
              && JS.strict_eq_num (received this)
                   (CollectorOptions.maxProcessed (options this))) eqn:P.
    + left. repeat split; [exact NL | apply set_nonzero_eqb, P].
    + right. repeat split; [exact NL |].
      rewrite <- set_nonzero_eqb, P. discriminate.
Qed.

Lemma endReason_limit_iff (this : t) :
  endReason this = Some "limit" <-> countLimitReached this.
Proof.
  destruct (endReason_cases this) as [[L E] | [(NL & P & E) | (NL & NP & E)]];
    rewrite E; split; intros H; try discriminate; tauto.
Qed.

Lemma endReason_processedLimit_iff (this : t) :
  endReason this = Some "processedLimit"
  <-> ~ countLimitReached this /\ processedLimitReached this.
Proof.
  destruct (endReason_cases this) as [[L E] | [(NL & P & E) | (NL & NP & E)]];
    rewrite E; split; intros H; try discriminate; tauto.
Qed.

Lemma endReason_null_iff (this : t) :
  endReason this = None
  <-> ~ countLimitReached this /\ ~ processedLimitReached this.
Proof.
  destruct (endReason_cases this) as [[L E] | [(NL & P & E) | (NL & NP & E)]];
    rewrite E; split; intros H; try discriminate; tauto.
Qed.

(** C1: the getter answers "limit" whenever the max option is set and at
    least max items are accepted; it answers "processedLimit" only when
    that is not so (and the processed limit applies), and null exactly when
    neither limit applies.  With max = 2 and maxProcessed = 2, two accepted
    and two received items, the answer is "limit". *)
Theorem endReason_limit_before_processedLimit :
  forall this : t,
    (countLimitReached this -> endReason this = Some "limit")
    /\ (endReason this = Some "processedLimit"
        <-> ~ countLimitReached this /\ processedLimitReached this)
    /\ (endReason this = None
        <-> ~ countLimitReached this /\ ~ processedLimitReached this)
    /\ (CollectorOptions.max (options this) = Some 2 ->
        CollectorOptions.maxProcessed (options this) = Some 2 ->
        Collection.size (collected this) = 2 ->
        received this = 2 ->
        endReason this = Some "limit").
Proof.
  intros this. split; [apply endReason_limit_iff |].
  split; [apply endReason_processedLimit_iff |].
  split; [apply endReason_null_iff |].
  intros Hmax Hmp Hs Hr. apply endReason_limit_iff.
  exists 2. rewrite Hs. repeat split; [assumption | lia | lia].
Qed.

Example endReason_both_limits :
  endReason (sample (Some 2) (Some 2) 2 two) = Some "limit".
Proof. reflexivity. Qed.

(** The processed limit is not reached by the counter being equal alone:
    here maxProcessed is set and received equals it, and the answer is
    "limit". *)
Lemma processedLimit_masked_by_limit :
  CollectorOptions.maxProcessed (options (sample (Some 2) (Some 2) 2 two)) = Some 2
  /\ received (sample (Some 2) (Some 2) 2 two) = 2
  /\ endReason (sample (Some 2) (Some 2) 2 two) = Some "limit"
  /\ ~ (endReason (sample (Some 2) (Some 2) 2 two) = Some "processedLimit"
        <-> received (sample (Some 2) (Some 2) 2 two) = 2).
Proof.
  repeat split. intros [_ H]. specialize (H eq_refl). discriminate H.
Qed.

(** C2 (amended): where maxProcessed is set and the count limit does not
    apply, the getter answers "processedLimit" exactly when received equals
    maxProcessed.  In every state "processedLimit" is answered only at
    equality, so once received is past maxProcessed no later state, whose
    counter is at least as large, answers "processedLimit". *)
Theorem processedLimit_strict_equality :
  forall (this : t) (m : Z),
    CollectorOptions.maxProcessed (options this) = Some m ->
    m <> 0 ->
    (~ countLimitReached this ->
     (endReason this = Some "processedLimit" <-> received this = m))
    /\ (endReason this = Some "processedLimit" -> received this = m)
    /\ (m < received this -> endReason this <> Some "processedLimit")
    /\ (forall later : t,
          options later = options this ->
          m < received this ->
          received this <= received later ->
          endReason later <> Some "processedLimit").
Proof.
  intros this m Hmp Hm.
  assert (forall s : t, options s = options this ->
            endReason s = Some "processedLimit" -> received s = m) as Eq.
  { intros s Ho H. apply endReason_processedLimit_iff in H.
    destruct H as [_ (m' & E & _ & Hr)]. rewrite Ho in E. congruence. }
  split; [| split; [| split]].
  - intros NL. split; [apply Eq; reflexivity |].
    intros Hr. apply endReason_processedLimit_iff. split; [exact NL |].
    exists m. auto.
  - apply Eq. reflexivity.
  - intros Hlt H. apply Eq in H; [lia | reflexivity].
  - intros later Ho Hlt Hle H. apply Eq in H; [lia | exact Ho].
Qed.

Lemma processedLimit_strict_equality_witness :
  (~ countLimitReached (sample None (Some 3) 3 two) ->
   (endReason (sample None (Some 3) 3 two) = Some "processedLimit"
    <-> received (sample None (Some 3) 3 two) = 3))
  /\ (endReason (sample None (Some 3) 3 two) = Some "processedLimit"
      -> received (sample None (Some 3) 3 two) = 3)
  /\ (3 < received (sample None (Some 3) 3 two)
      -> endReason (sample None (Some 3) 3 two) <> Some "processedLimit")
  /\ (forall later : t,
        options later = options (sample None (Some 3) 3 two) ->
        3 < received (sample None (Some 3) 3 two) ->
        received (sample None (Some 3) 3 two) <= received later ->
        endReason later <> Some "processedLimit").
Proof.
  apply (processedLimit_strict_equality (sample None (Some 3) 3 two) 3).
  - reflexivity.
  - lia.
Defined.

Example endReason_at_processed_limit :
  endReason (sample None (Some 3) 3 two) = Some "processedLimit".
Proof. reflexivity. Qed.

Example endReason_past_processed_limit :
  endReason (sample None (Some 3) 4 two) = None.
Proof. reflexivity. Qed.

(** C9: a max of zero never gives "limit" and a maxProcessed of zero never
    gives "processedLimit"; with each option absent or zero the getter
    answers null in every state. *)
Theorem endReason_zero_limits_never_apply :
  forall this : t,
    (CollectorOptions.max (options this) = Some 0 ->
     endReason this <> Some "limit")
    /\ (CollectorOptions.maxProcessed (options this) = Some 0 ->
        endReason this <> Some "processedLimit")
    /\ (CollectorOptions.max (options this) = None
        \/ CollectorOptions.max (options this) = Some 0 ->
        CollectorOptions.maxProcessed (options this) = None
        \/ CollectorOptions.maxProcessed (options this) = Some 0 ->
        endReason this = None).
Proof.
  intros this.
  assert (CollectorOptions.max (options this) = None
          \/ CollectorOptions.max (options this) = Some 0 ->
          ~ countLimitReached this) as NL.
  { intros [E | E] (m & E' & Hm & _); congruence. }
  assert (CollectorOptions.maxProcessed (options this) = None
          \/ CollectorOptions.maxProcessed (options this) = Some 0 ->
          ~ processedLimitReached this) as NP.
  { intros [E | E] (m & E' & Hm & _); congruence. }
  split; [| split].
  - intros E H. apply endReason_limit_iff in H. apply NL in H; auto.
  - intros E H. apply endReason_processedLimit_iff in H.
    destruct H as [_ H]. apply NP in H; auto.
  - intros Hx Hp. apply endReason_null_iff. auto.
Qed.

Example endReason_max_zero :
  Collection.size (collected (sample (Some 0) None 0 two)) >= 0
  /\ endReason (sample (Some 0) None 0 two) = None.
Proof. split; [cbn; lia | reflexivity]. Qed.

Example endReason_maxProcessed_zero :
  received (sample None (Some 0) 0 []) = 0
  /\ endReason (sample None (Some 0) 0 []) = None.
Proof. split; reflexivity. Qed.

(** ** [collect] and [dispose] *)

(** C3: for a message of the collector's channel, [collect] returns the
    message's identity and adds one to received; for any other message it
    returns null and leaves the collector as it was. *)
Theorem collect_counts_channel_messages :
  forall (message : Message.t) (this : t),
    (Channel.id (Message.channel message) = Channel.id (channel this) ->
     collect message this
     = (Some (Message.id message), set_received (received this + 1) this)
     /\ received (snd (collect message this)) = received this + 1
     /\ collected (snd (collect message this)) = collected this)
    /\ (Channel.id (Message.channel message) <> Channel.id (channel this) ->
        collect message this = (None, this)).
Proof.
  intros message this. unfold collect. split.
  - intros E. apply String.eqb_eq in E. rewrite E. cbn. auto.
  - intros N. apply String.eqb_neq in N. rewrite N. reflexivity.
Qed.

Example collect_in_channel :
  collect (msg "7" "c") (sample None None 4 two)
  = (Some "7", sample None None 5 two).
Proof. reflexivity. Qed.

Example collect_elsewhere :
  collect (msg "7" "d") (sample None None 4 two)
  = (None, sample None None 4 two).
Proof. reflexivity. Qed.

(** C4: [dispose] returns the message's identity exactly when the message
    is of the collector's channel, and null otherwise; it leaves the
    collector as it was, so received and the answer of the [endReason]
    getter are what they were. *)
Theorem dispose_is_pure :
  forall (message : Message.t) (this : t),
    (fst (dispose message this) = Some (Message.id message)
     <-> Channel.id (Message.channel message) = Channel.id (channel this))
    /\ (fst (dispose message this) = None
        <-> Channel.id (Message.channel message) <> Channel.id (channel this))
    /\ snd (dispose message this) = this
    /\ received (snd (dispose message this)) = received this
    /\ endReason (snd (dispose message this)) = endReason this.
Proof.
  intros message this. unfold dispose. cbn [fst snd].
  destruct (String.eqb_spec (Channel.id (Message.channel message))
                            (Channel.id (channel this))) as [E | N].
  - split; [tauto |]. split; [| auto].
    split; [discriminate | intros N; contradiction].
  - split; [| split; [tauto | auto]].
    split; [discriminate | intros E; contradiction].
Qed.

Example dispose_in_channel :
  dispose (msg "1" "c") (sample (Some 2) None 2 two)
  = (Some "1", sample (Some 2) None 2 two).
Proof. reflexivity. Qed.

(** ** Collections *)

Lemma get_filter_keys {V : Type} (f : Snowflake -> bool) (k : Snowflake)
    (c : Collection.t V) :
  Collection.get k (filter (fun e => f (fst e)) c)
  = if f k then Collection.get k c else None.
Proof.
  induction c as [| [k' v] c IH]; cbn [filter Collection.get fst].
  - destruct (f k); reflexivity.
  - destruct (f k') eqn:Fk'; cbn [Collection.get];
      destruct (String.eqb_spec k k') as [-> | N].
    + rewrite Fk'. reflexivity.
    + exact IH.
    + rewrite IH, Fk'. reflexivity.
    + exact IH.
Qed.

Lemma get_delete {V : Type} (k k' : Snowflake) (c : Collection.t V) :
  Collection.get k (Collection.delete k' c)
  = if String.eqb k' k then None else Collection.get k c.
Proof.
  unfold Collection.delete.
  rewrite (get_filter_keys (fun x => negb (String.eqb k' x))).
  destruct (String.eqb k' k); reflexivity.
Qed.

Lemma delete_absent {V : Type} (k : Snowflake) (c : Collection.t V) :
  Collection.has k c = false -> Collection.delete k c = c.
Proof.
  unfold Collection.has, Collection.delete.
  induction c as [| [k' v] c IH]; cbn [filter Collection.get fst]; [reflexivity |].
  destruct (String.eqb k k'); cbn [negb]; [discriminate |].
  intros H. rewrite (IH H). reflexivity.
Qed.

Lemma size_delete_le {V : Type} (k : Snowflake) (c : Collection.t V) :
  Collection.size (Collection.delete k c) <= Collection.size c.
Proof.
  unfold Collection.size, Collection.delete.
  apply Nat2Z.inj_le, filter_length_le.
Qed.

(** ** The engine, step by step *)

Lemma stop_ended (reason : string) (this : t) :
  ended this = true -> stop reason this = this.
Proof. unfold stop. intros ->. reflexivity. Qed.

(** What [stop] does to a running collector, field by field. *)
Lemma stop_running (reason : string) (this : t) :
  ended this = false ->
  stop reason this
  = mk (if endListener this then client (onEnd this) else client this)
       (self this) (options this) (channel this) (received this)
       (collected this) true (Some reason) false false false
       (emitted this ++ [NEnd (collected this) reason]).
Proof.
  unfold stop, emitEnd. intros ->.
  unfold onEnd, emit, set_client, set_endListener, set_timers, set_ended. cbn.
  destruct (endListener this); reflexivity.
Qed.

Lemma stop_idempotent (a b : string) (this : t) :
  stop b (stop a this) = stop a this.
Proof.
  destruct (ended this) eqn:E.
  - rewrite (stop_ended a this E). apply stop_ended, E.
  - apply stop_ended. rewrite (stop_running a this E). reflexivity.
Qed.

Lemma checkEnd_ended (this : t) : ended this = true -> checkEnd this = this.
Proof.
  unfold checkEnd. intros E. destruct (endReason this); [apply stop_ended, E | reflexivity].
Qed.

Lemma handleCollect_ended (m : Message.t) (this : t) :
  ended this = true -> handleCollect m this = this.
Proof. unfold handleCollect. intros ->. reflexivity. Qed.

Lemma handleDispose_ended (m : Message.t) (this : t) :
  ended this = true -> handleDispose m this = this.
Proof. unfold handleDispose. intros ->. reflexivity. Qed.

Lemma bulkDeleteListener_ended (ms : Collection.t Message.t) (this : t) :
  ended this = true -> bulkDeleteListener ms this = this.
Proof.
  unfold bulkDeleteListener. intros E.
  induction (Collection.values ms) as [| m l IH]; cbn [fold_left]; [reflexivity |].
  rewrite (handleDispose_ended m this E). exact IH.
Qed.

Lemma step_ended (i : Input) (this : t) :
  ended this = true -> step this i = this.
Proof.
  intros E. destruct i as [ev | r | m | m | |]; cbn [step].
  - destruct ev; cbn [deliver];
      match goal with |- (if ?b then _ else _) = _ => destruct b end;
      try reflexivity.
    + apply handleCollect_ended, E.
    + apply handleDispose_ended, E.
    + apply bulkDeleteListener_ended, E.
    + unfold _handleChannelDeletion.
      destruct (String.eqb _ _); [apply stop_ended, E | reflexivity].
    + unfold _handleGuildDeletion.
      destruct (JS.strict_eq_str _ _); [apply stop_ended, E | reflexivity].
  - apply stop_ended, E.
  - apply handleCollect_ended, E.
  - apply handleDispose_ended, E.
  - destruct (_timeout this); [apply stop_ended, E | reflexivity].
  - destruct (_idletimeout this); [apply stop_ended, E | reflexivity].
Qed.

Lemma run_ended (inputs : list Input) (this : t) :
  ended this = true -> run inputs this = this.
Proof.
  unfold run. induction inputs as [| i inputs IH]; cbn [fold_left]; [reflexivity |].
  intros E. rewrite (step_ended i this E). apply IH, E.
Qed.

(** What [handleDispose] does to a running collector. *)
Lemma handleDispose_running (m : Message.t) (this : t) :
  ended this = false ->
  handleDispose m this
  = if String.eqb (Channel.id (Message.channel m)) (Channel.id (channel this))
       && Collection.has (Message.id m) (collected this)
    then emit (NDispose m)
           (set_collected (Collection.delete (Message.id m) (collected this)) this)
    else this.
Proof.
  unfold handleDispose, dispose. intros ->.
  destruct (String.eqb _ _); cbn [andb]; reflexivity.
Qed.

Lemma handleDispose_collected (m : Message.t) (this : t) :
  ended this = false ->
  collected (handleDispose m this)
  = if String.eqb (Channel.id (Message.channel m)) (Channel.id (channel this))
    then Collection.delete (Message.id m) (collected this)
    else collected this.
Proof.
  intros E. rewrite (handleDispose_running m this E).
  destruct (String.eqb _ _); cbn [andb]; [| reflexivity].
  destruct (Collection.has _ _) eqn:H; cbn; [reflexivity |].
  symmetry. apply delete_absent, H.
Qed.

(** [handleDispose] touches the accepted items and the log only. *)
Lemma handleDispose_frame (m : Message.t) (this : t) :
  client (handleDispose m this) = client this
  /\ self (handleDispose m this) = self this
  /\ options (handleDispose m this) = options this
  /\ channel (handleDispose m this) = channel this
  /\ received (handleDispose m this) = received this
  /\ ended (handleDispose m this) = ended this
  /\ terminalReason (handleDispose m this) = terminalReason this
  /\ endListener (handleDispose m this) = endListener this.
Proof.
  destruct (ended this) eqn:E.
  - rewrite (handleDispose_ended m this E). rewrite E. repeat split.
  - rewrite (handleDispose_running m this E).
    destruct (_ && _); cbn; rewrite ?E; repeat split.
Qed.

(** Disposal alone does not bring an end reason about. *)
Lemma handleDispose_endReason_null (m : Message.t) (this : t) :
  endReason this = None -> endReason (handleDispose m this) = None.
Proof.
  intros H. destruct (ended this) eqn:E.
  - rewrite (handleDispose_ended m this E). exact H.
  - apply endReason_null_iff in H. destruct H as [NL NP].
    apply endReason_null_iff.
    pose proof (handleDispose_frame m this) as (_ & _ & Ho & _ & Hr & _).
    pose proof (handleDispose_collected m this E) as Hc.
    split.
    + intros (mx & Ex & Hm & Hs). apply NL. exists mx.
      rewrite Ho in Ex. repeat split; [exact Ex | exact Hm |].
      rewrite Hc in Hs. destruct (String.eqb _ _); [| exact Hs].
      pose proof (size_delete_le (Message.id m) (collected this)). lia.
    + intros (mp & Ep & Hm & Hp). apply NP. exists mp.
      rewrite Ho in Ep. rewrite Hr in Hp. auto.
Qed.

(** One step of a running collector either leaves it running, with its
    registrations as they were, or ends it. *)
Definition sameWiring (this next : t) : Prop :=
  client next = client this
  /\ self next = self this
  /\ endListener next = endListener this
  /\ options next = options this
  /\ channel next = channel this
  /\ received this <= received next.

Definition stays (this next : t) : Prop :=
  ended next = false
  /\ terminalReason next = terminalReason this
  /\ sameWiring this next.

Definition stops (this next : t) : Prop :=
  ended next = true
  /\ (exists reason, terminalReason next = Some reason)
  /\ client next = (if endListener this then client (onEnd this) else client this)
  /\ self next = self this
  /\ endListener next = false
  /\ options next = options this
  /\ channel next = channel this
  /\ received this <= received next.

Lemma sameWiring_refl (this : t) : sameWiring this this.
Proof. unfold sameWiring. repeat split; lia. Qed.

Lemma sameWiring_trans (a b c : t) :
  sameWiring a b -> sameWiring b c -> sameWiring a c.
Proof.
  unfold sameWiring.
  intros (H1 & H2 & H3 & H4 & H5 & H6) (K1 & K2 & K3 & K4 & K5 & K6).
  repeat split; try congruence. lia.
Qed.

Lemma stays_refl (this : t) : ended this = false -> stays this this.
Proof. intros E. unfold stays. auto using sameWiring_refl. Qed.

Lemma stays_trans (a b c : t) : stays a b -> stays b c -> stays a c.
Proof.
  unfold stays. intros (H1 & H2 & H3) (K1 & K2 & K3).
  split; [assumption | split; [congruence | eauto using sameWiring_trans]].
Qed.

Lemma stop_stops (reason : string) (this : t) :
  ended this = false -> stops this (stop reason this).
Proof.
  intros E. rewrite (stop_running reason this E). unfold stops. cbn.
  repeat split; eauto. lia.
Qed.

Lemma stops_after (this mid next : t) :
  sameWiring this mid -> stops mid next -> stops this next.
Proof.
  unfold sameWiring, stops, onEnd.
  intros (H1 & H2 & H3 & H4 & H5 & H6) (K1 & K2 & K3 & K4 & K5 & K6 & K7 & K8).
  rewrite H3, H1, H2 in K3. cbn in K3 |- *.
  repeat split; try congruence. lia.
Qed.

Lemma handleDispose_stays (m : Message.t) (this : t) :
  ended this = false -> stays this (handleDispose m this).
Proof.
  intros E. pose proof (handleDispose_frame m this) as (? & ? & ? & ? & ? & ? & ? & ?).
  unfold stays, sameWiring. repeat split; try congruence. lia.
Qed.

Lemma bulkDeleteListener_stays (ms : Collection.t Message.t) (this : t) :
  ended this = false -> stays this (bulkDeleteListener ms this).
Proof.
  unfold bulkDeleteListener.
  generalize (Collection.values ms) as l. intros l. revert this.
  induction l as [| m l IH]; intros this E; cbn [fold_left].
  - apply stays_refl, E.
  - pose proof (handleDispose_stays m this E) as S.
    eapply stays_trans; [exact S |]. apply IH. apply S.
Qed.

Lemma checkEnd_running (this : t) :
  ended this = false -> stays this (checkEnd this) \/ stops this (checkEnd this).
Proof.
  intros E. unfold checkEnd. destruct (endReason this).
  - right. apply stop_stops, E.
  - left. apply stays_refl, E.
Qed.

Lemma handleCollect_running (m : Message.t) (this : t) :
  ended this = false ->
  stays this (handleCollect m this) \/ stops this (handleCollect m this).
Proof.
  intros E. unfold handleCollect, collect. rewrite E.
  destruct (negb (String.eqb _ _)).
  - left. apply stays_refl, E.
  - match goal with
    | |- context [checkEnd ?mid] =>
        assert (sameWiring this mid /\ ended mid = false
                /\ terminalReason mid = terminalReason this) as (W & Em & Tm)
    end.
    { destruct (JS.default _ _ m); unfold sameWiring; cbn;
        repeat split; auto; lia. }
    match goal with
    | |- context [checkEnd ?mid] =>
        destruct (checkEnd_running mid Em) as [S | S]
    end.
    + left. destruct S as (S1 & S2 & S3).
      split; [exact S1 | split; [congruence | eauto using sameWiring_trans]].
    + right. eapply stops_after; eauto.
Qed.

Lemma step_running (i : Input) (this : t) :
  ended this = false -> stays this (step this i) \/ stops this (step this i).
Proof.
  intros E. destruct i as [ev | r | m | m | |]; cbn [step].
  - destruct ev; cbn [deliver];
      match goal with |- context [if ?b then _ else _] => destruct b end;
      try (left; apply stays_refl, E).
    + apply handleCollect_running, E.
    + left. apply handleDispose_stays, E.
    + left. apply bulkDeleteListener_stays, E.
    + unfold _handleChannelDeletion. destruct (String.eqb _ _).
      * right. apply stop_stops, E.
      * left. apply stays_refl, E.
    + unfold _handleGuildDeletion. destruct (JS.strict_eq_str _ _).
      * right. apply stop_stops, E.
      * left. apply stays_refl, E.
  - right. apply stop_stops, E.
  - apply handleCollect_running, E.
  - left. apply handleDispose_stays, E.
  - destruct (_timeout this).
    + right. apply stop_stops, E.
    + left. apply stays_refl, E.
  - destruct (_idletimeout this).
    + right. apply stop_stops, E.
    + left. apply stays_refl, E.
Qed.

(** ** Cascading termination *)

(** C5: the channel-deleted handler calls stop("channelDelete") when the
    deleted channel has the identity of the collector's channel and does
    nothing otherwise; the guild-deleted handler calls stop("guildDelete")
    when the collector's channel has a guild of the deleted guild's identity
    and does nothing otherwise, in particular when the channel has no guild.
    On a running collector the collector is ended afterwards exactly when
    the identities are equal. *)
Theorem cascading_termination :
  forall (this : t) (channel' : Channel.t) (guild' : Guild.t),
    (Channel.id channel' = Channel.id (channel this) ->
     _handleChannelDeletion channel' this = stop "channelDelete" this)
    /\ (Channel.id channel' <> Channel.id (channel this) ->
        _handleChannelDeletion channel' this = this)
    /\ ((exists g, Channel.guild (channel this) = Some g
                   /\ Guild.id guild' = Guild.id g) ->
        _handleGuildDeletion guild' this = stop "guildDelete" this)
    /\ (~ (exists g, Channel.guild (channel this) = Some g
                     /\ Guild.id guild' = Guild.id g) ->
        _handleGuildDeletion guild' this = this)
    /\ (Channel.guild (channel this) = None ->
        _handleGuildDeletion guild' this = this)
    /\ (ended this = false ->
        (ended (_handleChannelDeletion channel' this) = true
         <-> Channel.id channel' = Channel.id (channel this))
        /\ (Channel.id channel' = Channel.id (channel this) ->
            terminalReason (_handleChannelDeletion channel' this)
            = Some "channelDelete")
        /\ (ended (_handleGuildDeletion guild' this) = true
            <-> exists g, Channel.guild (channel this) = Some g
                          /\ Guild.id guild' = Guild.id g)
        /\ ((exists g, Channel.guild (channel this) = Some g
                       /\ Guild.id guild' = Guild.id g) ->
            terminalReason (_handleGuildDeletion guild' this)
            = Some "guildDelete")).
Proof.
  intros this channel' guild'.
  assert (JS.strict_eq_str (Guild.id guild')
            (option_map Guild.id (Channel.guild (channel this))) = true
          <-> exists g, Channel.guild (channel this) = Some g
                        /\ Guild.id guild' = Guild.id g) as G.
  { destruct (Channel.guild (channel this)) as [g |]; cbn.
    - rewrite String.eqb_eq. split.
      + intros H. exists g. auto.
      + intros (g' & E & H). injection E as <-. exact H.
    - split; [discriminate | intros (g & E & _); discriminate]. }
  unfold _handleChannelDeletion, _handleGuildDeletion.
  destruct (String.eqb_spec (Channel.id channel') (Channel.id (channel this)))
    as [C | C];
    destruct (JS.strict_eq_str (Guild.id guild')
                (option_map Guild.id (Channel.guild (channel this)))) eqn:S;
    (split; [tauto || reflexivity |]);
    (split; [tauto || reflexivity |]);
    (split; [try reflexivity; intros H; apply G in H; discriminate |]);
    (split; [try reflexivity; intros H; exfalso; apply H, G; reflexivity |]);
    (split; [try reflexivity; intros H; rewrite H in S; discriminate |]);
    intros E; rewrite ?(stop_running _ this E); cbn [ended terminalReason];
    rewrite ?E;
    (split; [split; [tauto || discriminate | tauto || reflexivity] |]);
    (split; [tauto || reflexivity |]);
    (split; [rewrite <- G; split; [tauto || discriminate | tauto || reflexivity] |]);
    try reflexivity; intros H; apply G in H; discriminate.
Qed.

Example guild_deletion_stops :
  terminalReason (_handleGuildDeletion (Guild.mk "g") (sample None None 0 two))
  = Some "guildDelete"
  /\ ended (_handleGuildDeletion (Guild.mk "h") (sample None None 0 two)) = false.
Proof. split; reflexivity. Qed.

(** ** Bulk removal *)

Lemma filter_all {A : Type} (f : A -> bool) (l : list A) :
  (forall x, f x = true) -> filter f l = l.
Proof.
  intros H. induction l as [| x l IH]; cbn; [reflexivity |].
  rewrite H, IH. reflexivity.
Qed.

Lemma filter_twice {A : Type} (f g : A -> bool) (l : list A) :
  filter f (filter g l) = filter (fun x => g x && f x) l.
Proof.
  induction l as [| x l IH]; cbn; [reflexivity |].
  destruct (g x); cbn; [destruct (f x) |]; rewrite IH; reflexivity.
Qed.

Lemma dispose_each_collected (l : list Message.t) (this : t) :
  ended this = false ->
  collected (fold_left (fun this message => handleDispose message this) l this)
  = filter (fun e => negb (disposedBy (Channel.id (channel this)) l (fst e)))
           (collected this).
Proof.
  revert this. induction l as [| m l IH]; intros this E; cbn [fold_left].
  - symmetry. apply filter_all. reflexivity.
  - pose proof (handleDispose_stays m this E) as (E' & _ & _ & _ & _ & _ & Hc & _).
    rewrite (IH _ E'), Hc, (handleDispose_collected m this E).
    destruct (String.eqb_spec (Channel.id (Message.channel m))
                              (Channel.id (channel this))) as [C | C].
    + unfold Collection.delete. rewrite filter_twice. apply filter_ext.
      intros [k v]. cbn [disposedBy existsb fst].
      rewrite C, String.eqb_refl. cbn [andb].
      rewrite negb_orb. reflexivity.
    + apply filter_ext. intros [k v]. cbn [disposedBy existsb fst].
      apply String.eqb_neq in C. rewrite C. reflexivity.
Qed.

Lemma dispose_each_received (l : list Message.t) (this : t) :
  received (fold_left (fun this message => handleDispose message this) l this)
  = received this.
Proof.
  revert this. induction l as [| m l IH]; intros this; cbn [fold_left].
  - reflexivity.
  - rewrite IH. apply handleDispose_frame.
Qed.

(** C6: on a bulk removal the listener calls [handleDispose] once for each
    message of the collection, in order; on a running collector exactly the
    accepted entries whose key is the identity of a contained message of the
    collector's channel are removed, every other entry keeps its place and
    value, and received is unchanged. *)
Theorem bulk_delete_disposes_channel_messages :
  forall (messages : Collection.t Message.t) (this : t),
    ended this = false ->
    bulkDeleteListener messages this
    = fold_left (fun this message => handleDispose message this)
                (Collection.values messages) this
    /\ collected (bulkDeleteListener messages this)
       = filter
           (fun e => negb (disposedBy (Channel.id (channel this))
                             (Collection.values messages) (fst e)))
           (collected this)
    /\ (forall k,
          Collection.get k (collected (bulkDeleteListener messages this))
          = if disposedBy (Channel.id (channel this))
                 (Collection.values messages) k
            then None
            else Collection.get k (collected this))
    /\ received (bulkDeleteListener messages this) = received this
    /\ ended (bulkDeleteListener messages this) = false.
Proof.
  intros messages this E.
  pose proof (bulkDeleteListener_stays messages this E) as (E' & _).
  pose proof (dispose_each_received (Collection.values messages) this) as R.
  split; [reflexivity |].
  split; [apply dispose_each_collected, E |].
  split; [| split; [exact R | exact E']].
  intros k. unfold bulkDeleteListener. rewrite (dispose_each_collected _ this E).
  rewrite (get_filter_keys
             (fun x => negb (disposedBy (Channel.id (channel this))
                               (Collection.values messages) x))).
  destruct (disposedBy _ _ k); reflexivity.
Qed.

Lemma bulk_delete_disposes_channel_messages_witness :
  bulkDeleteListener bulk (sample None None 5 five)
  = fold_left (fun this message => handleDispose message this)
              (Collection.values bulk) (sample None None 5 five)
  /\ collected (bulkDeleteListener bulk (sample None None 5 five))
     = filter
         (fun e => negb (disposedBy (Channel.id (channel (sample None None 5 five)))
                           (Collection.values bulk) (fst e)))
         (collected (sample None None 5 five))
  /\ (forall k,
        Collection.get k (collected (bulkDeleteListener bulk (sample None None 5 five)))
        = if disposedBy (Channel.id (channel (sample None None 5 five)))
               (Collection.values bulk) k
          then None
          else Collection.get k (collected (sample None None 5 five)))
  /\ received (bulkDeleteListener bulk (sample None None 5 five))
     = received (sample None None 5 five)
  /\ ended (bulkDeleteListener bulk (sample None None 5 five)) = false.
Proof.
  apply (bulk_delete_disposes_channel_messages bulk (sample None None 5 five)).
  reflexivity.
Defined.

Example bulk_delete_three_of_five :
  collected (bulkDeleteListener bulk (sample None None 5 five))
  = [("2", msg "2" "c"); ("4", msg "4" "c")]
  /\ received (bulkDeleteListener bulk (sample None None 5 five)) = 5.
Proof. split; reflexivity. Qed.

(** ** Termination happens once *)

Lemma endings_ended (inputs : list Input) (this : t) :
  ended this = true -> endings inputs this = 0%nat.
Proof.
  revert this. induction inputs as [| i inputs IH]; intros this E; cbn [endings].
  - reflexivity.
  - rewrite (step_ended i this E), E, (IH this E). reflexivity.
Qed.

Lemma endings_running (inputs : list Input) (this : t) :
  ended this = false ->
  endings inputs this = if ended (run inputs this) then 1%nat else 0%nat.
Proof.
  revert this. induction inputs as [| i inputs IH]; intros this E;
    cbn [endings run fold_left].
  - rewrite E. reflexivity.
  - rewrite E. cbn [negb andb].
    destruct (step_running i this E) as [(E' & _) | (E' & _)]; rewrite E'.
    + apply (IH _ E').
    + rewrite (endings_ended inputs _ E').
      change (fold_left step inputs (step this i)) with (run inputs (step this i)).
      rewrite (run_ended inputs _ E'), E'. reflexivity.
Qed.

Lemma reasonRecorded_step (i : Input) (this : t) :
  reasonRecorded this -> reasonRecorded (step this i).
Proof.
  unfold reasonRecorded. destruct (ended this) eqn:E.
  - rewrite (step_ended i this E), E. auto.
  - destruct (step_running i this E) as [(E' & T & _) | (E' & T & _)];
      rewrite E'; [congruence | intros _; exact T].
Qed.

Lemma reasonRecorded_run (inputs : list Input) (this : t) :
  reasonRecorded this -> reasonRecorded (run inputs this).
Proof.
  unfold run. revert this.
  induction inputs as [| i inputs IH]; intros this H; cbn [fold_left];
    auto using reasonRecorded_step.
Qed.

(** The getter knows the two limit reasons only, and [stop] does not
    change its answer: the reason given to [stop] is the recorded one. *)
Lemma endReason_values (this : t) :
  endReason this = Some "limit"
  \/ endReason this = Some "processedLimit"
  \/ endReason this = None.
Proof.
  destruct (endReason_cases this) as [[_ E] | [(_ & _ & E) | (_ & _ & E)]]; auto.
Qed.

Lemma stop_keeps_getter (reason : string) (this : t) :
  endReason (stop reason this) = endReason this.
Proof.
  destruct (ended this) eqn:E.
  - rewrite (stop_ended reason this E). reflexivity.
  - rewrite (stop_running reason this E). reflexivity.
Qed.

(** The engine as modelled: a second [stop] changes nothing, so after
    stop("a") and stop("b") on a running collector the recorded reason is
    "a"; on an ended collector no input changes anything; along any run the
    ended flag goes from false to true at most once, and once exactly if
    the run ends the collector; the reason is recorded at that moment in
    every run of a new collector. *)
Theorem stop_terminates_once :
  forall (this : t) (a b : string),
    stop b (stop a this) = stop a this
    /\ (ended this = false ->
        ended (stop a this) = true
        /\ terminalReason (stop a this) = Some a
        /\ terminalReason (stop b (stop a this)) = Some a)
    /\ (ended this = true ->
        forall inputs,
          run inputs this = this
          /\ collected (run inputs this) = collected this
          /\ received (run inputs this) = received this
          /\ terminalReason (run inputs this) = terminalReason this
          /\ endReason (run inputs this) = endReason this
          /\ ended (run inputs this) = true)
    /\ (forall inputs,
          endings inputs this
          = if ended this then 0%nat
            else if ended (run inputs this) then 1%nat else 0%nat)
    /\ (forall inputs client self channel options,
          reasonRecorded (run inputs (constructor client self channel options))).
Proof.
  intros this a b.
  split; [apply stop_idempotent |].
  split.
  { intros E. rewrite stop_idempotent, (stop_running a this E). cbn. auto. }
  split.
  { intros E inputs. rewrite (run_ended inputs this E). repeat split. exact E. }
  split.
  { intros inputs. destruct (ended this) eqn:E.
    - apply endings_ended, E.
    - apply endings_running, E. }
  intros inputs c s ch o. apply reasonRecorded_run. reflexivity.
Qed.

(** C8: after stop("a") and stop("b") the [endReason] getter does not
    answer "a".  [stop] leaves the getter's answer as it was, and in every
    state that answer is "limit", "processedLimit" or null, whereas the
    getter is documented as the reason the collector has ended with.  On a
    new collector without limits, stopped with "a" and then with "b", the
    collector has ended, the reason given to the first [stop] is the one
    recorded and notified, and the getter answers null. *)
Theorem endReason_is_not_the_stop_reason :
  (forall (this : t) (a b : string),
      endReason (stop b (stop a this)) = endReason this)
  /\ (forall this : t,
        endReason this = Some "limit"
        \/ endReason this = Some "processedLimit"
        \/ endReason this = None)
  /\ (forall (this : t) (b : string),
        endReason (stop b (stop "a" this)) <> Some "a")
  /\ ended (stop "b" (stop "a" (constructor busy 7 lobby (limits None None))))
     = true
  /\ terminalReason
       (stop "b" (stop "a" (constructor busy 7 lobby (limits None None))))
     = Some "a"
  /\ emitted (stop "b" (stop "a" (constructor busy 7 lobby (limits None None))))
     = [NEnd [] "a"]
  /\ endReason (stop "b" (stop "a" (constructor busy 7 lobby (limits None None))))
     = None.
Proof.
  split; [| split; [| split]].
  - intros this a b. rewrite !stop_keeps_getter. reflexivity.
  - exact endReason_values.
  - intros this b. rewrite !stop_keeps_getter.
    destruct (endReason_values this) as [E | [E | E]]; rewrite E; discriminate.
  - vm_compute. repeat split.
Qed.

Example stop_twice :
  terminalReason
    (run [Stop "a"; Stop "b"] (constructor busy 7 lobby (limits None None)))
  = Some "a"
  /\ emitted
       (run [Stop "a"; Stop "b"] (constructor busy 7 lobby (limits None None)))
     = [NEnd [] "a"].
Proof. vm_compute. split; reflexivity. Qed.

(** ** The listeners on the client *)

Lemma events_eqb_refl (e : Events.t) : Events.eqb e e = true.
Proof. destruct e; cbn; auto using String.eqb_refl. Qed.

Lemma listener_eqb_refl (l : Listener.t) : Listener.eqb l l = true.
Proof.
  unfold Listener.eqb. rewrite Nat.eqb_refl.
  destruct (Listener.code l); cbn; auto using String.eqb_refl.
Qed.

Lemma entry_eqb_refl (x : Events.t * Listener.t) : Client.entry_eqb x x = true.
Proof.
  unfold Client.entry_eqb. rewrite events_eqb_refl, listener_eqb_refl. reflexivity.
Qed.

Lemma remove_first_skip (x : Events.t * Listener.t)
    (l1 l2 : list (Events.t * Listener.t)) :
  existsb (Client.entry_eqb x) l1 = false ->
  Client.remove_first x (l1 ++ l2) = l1 ++ Client.remove_first x l2.
Proof.
  induction l1 as [| y l1 IH]; cbn [existsb app Client.remove_first].
  - reflexivity.
  - intros H. apply orb_false_iff in H as [H1 H2].
    rewrite H1, (IH H2). reflexivity.
Qed.

Lemma existsb_rev_false {A : Type} (f : A -> bool) (l : list A) :
  existsb f l = false -> existsb f (rev l) = false.
Proof.
  intros H. destruct (existsb f (rev l)) eqn:R; [| reflexivity].
  apply existsb_exists in R as (x & Hin & Hx).
  rewrite <- H. symmetry. apply existsb_exists.
  exists x. split; [apply in_rev, Hin | exact Hx].
Qed.

(** Removing a listener that is registered once after [ls] takes that entry
    out and nothing else. *)
Lemma removeListener_latest (e : Events.t) (l : Listener.t)
    (ls tail : list (Events.t * Listener.t)) (budget : Z) :
  existsb (Client.entry_eqb (e, l)) tail = false ->
  Client.removeListener e l (Client.mk (ls ++ (e, l) :: tail) budget)
  = Client.mk (ls ++ tail) budget.
Proof.
  intros H. unfold Client.removeListener. cbn [Client.listeners Client.maxListeners].
  f_equal. rewrite rev_app_distr. cbn [rev]. rewrite <- app_assoc. cbn [app].
  rewrite (remove_first_skip _ _ _ (existsb_rev_false _ _ H)).
  cbn [Client.remove_first]. rewrite entry_eqb_refl.
  rewrite rev_app_distr, !rev_involutive. reflexivity.
Qed.

(** The "end" listener undoes what the constructor did to the client. *)
Lemma onEnd_restores (c : Client.t) (this : t) :
  client this
  = Client.mk (Client.listeners c ++ registrations (self this))
              (Client.maxListeners c + 1) ->
  client (onEnd this) = c.
Proof.
  intros H. unfold onEnd, set_client. cbn [client]. rewrite H.
  unfold registrations.
  repeat (rewrite removeListener_latest by reflexivity).
  unfold Client.decrementMaxListeners. cbn [Client.listeners Client.maxListeners].
  rewrite app_nil_r. destruct c as [ls budget]. cbn. f_equal. lia.
Qed.

Lemma owned_registrations (s : nat) (ls : list (Events.t * Listener.t)) (b : Z) :
  Client.owned s (Client.mk (ls ++ registrations s) b)
  = (Client.owned s (Client.mk ls b) + 5)%nat.
Proof.
  unfold Client.owned. cbn [Client.listeners].
  rewrite filter_app, length_app. f_equal.
  unfold registrations. cbn. rewrite Nat.eqb_refl. reflexivity.
Qed.

(** *** On a shared client *)

Lemma events_eqb_eq (a b : Events.t) : Events.eqb a b = true -> a = b.
Proof.
  destruct a, b; cbn; try discriminate; try reflexivity.
  intros H. apply String.eqb_eq in H. congruence.
Qed.

Lemma listener_eqb_eq (a b : Listener.t) : Listener.eqb a b = true -> a = b.
Proof.
  destruct a as [oa fa], b as [ob fb]. unfold Listener.eqb. cbn.
  intros H. apply andb_prop in H as [Ho Hf]. apply Nat.eqb_eq in Ho. subst ob.
  destruct fa, fb; cbn in Hf; try discriminate; try reflexivity.
  apply String.eqb_eq in Hf. congruence.
Qed.

Lemma entry_eqb_eq (x y : Events.t * Listener.t) :
  Client.entry_eqb x y = true -> x = y.
Proof.
  destruct x as [e l], y as [e' l']. unfold Client.entry_eqb. cbn.
  intros H. apply andb_prop in H as [He Hl].
  apply events_eqb_eq in He. apply listener_eqb_eq in Hl. congruence.
Qed.

Lemma filter_remove_first_kept (p : Events.t * Listener.t -> bool)
    (x : Events.t * Listener.t) (l : list (Events.t * Listener.t)) :
  p x = true ->
  filter p (Client.remove_first x l) = Client.remove_first x (filter p l).
Proof.
  intros Px. induction l as [| y l IH]; cbn [Client.remove_first filter].
  - reflexivity.
  - destruct (Client.entry_eqb x y) eqn:E.
    + apply entry_eqb_eq in E. subst y. rewrite Px.
      cbn [Client.remove_first]. rewrite entry_eqb_refl. reflexivity.
    + cbn [filter]. destruct (p y); cbn [Client.remove_first];
        rewrite ?E, IH; reflexivity.
Qed.

Lemma filter_remove_first_dropped (p : Events.t * Listener.t -> bool)
    (x : Events.t * Listener.t) (l : list (Events.t * Listener.t)) :
  p x = false ->
  filter p (Client.remove_first x l) = filter p l.
Proof.
  intros Px. induction l as [| y l IH]; cbn [Client.remove_first filter].
  - reflexivity.
  - destruct (Client.entry_eqb x y) eqn:E.
    + apply entry_eqb_eq in E. subst y. rewrite Px. reflexivity.
    + cbn [filter]. rewrite IH. reflexivity.
Qed.

Lemma mine_removeListener_own (s : nat) (e : Events.t) (f : Listener.fn)
    (c : Client.t) :
  mine s (Client.removeListener e (Listener.mk s f) c)
  = rev (Client.remove_first (e, Listener.mk s f) (rev (mine s c))).
Proof.
  unfold mine, Client.removeListener. cbn [Client.listeners].
  rewrite filter_rev, filter_remove_first_kept, filter_rev; [reflexivity |].
  cbn. apply Nat.eqb_refl.
Qed.

Lemma mine_removeListener_foreign (s : nat) (e : Events.t) (l : Listener.t)
    (c : Client.t) :
  Listener.owner l <> s ->
  mine s (Client.removeListener e l c) = mine s c.
Proof.
  intros N. unfold mine, Client.removeListener. cbn [Client.listeners].
  rewrite filter_rev, filter_remove_first_dropped, filter_rev, rev_involutive;
    [reflexivity |].
  cbn. apply Nat.eqb_neq, N.
Qed.

Lemma mine_on_foreign (s : nat) (e : Events.t) (l : Listener.t) (c : Client.t) :
  Listener.owner l <> s -> mine s (Client.on e l c) = mine s c.
Proof.
  intros N. unfold mine, Client.on. cbn [Client.listeners].
  rewrite filter_app. cbn [filter snd].
  apply Nat.eqb_neq in N. rewrite N. apply app_nil_r.
Qed.

(** The "end" listener takes the instance's five listeners off a shared
    client and lowers the budget by one. *)
Lemma onEnd_among (this : t) :
  mine (self this) (client this) = registrations (self this) ->
  mine (self this) (client (onEnd this)) = []
  /\ Client.maxListeners (client (onEnd this))
     = Client.maxListeners (client this) - 1.
Proof.
  intros H. unfold onEnd, set_client. cbn [client]. split; [| reflexivity].
  unfold Client.decrementMaxListeners, mine at 1. cbn [Client.listeners].
  fold (mine (self this)
          (Client.removeListener Events.GUILD_DELETE
             (Listener.mk (self this) Listener._handleGuildDeletion)
             (Client.removeListener Events.CHANNEL_DELETE
                (Listener.mk (self this) Listener._handleChannelDeletion)
                (Client.removeListener Events.MESSAGE_BULK_DELETE
                   (Listener.mk (self this) Listener.bulkDeleteListener)
                   (Client.removeListener Events.MESSAGE_DELETE
                      (Listener.mk (self this) Listener.handleDispose)
                      (Client.removeListener Events.MESSAGE_CREATE
                         (Listener.mk (self this) Listener.handleCollect)
                         (client this))))))).
  rewrite !mine_removeListener_own, H. unfold registrations.
  repeat (cbn; rewrite ?listener_eqb_refl). reflexivity.
Qed.

Lemma stop_ends (reason : string) (this : t) : ended (stop reason this) = true.
Proof.
  destruct (ended this) eqn:E.
  - rewrite (stop_ended reason this E). exact E.
  - rewrite (stop_running reason this E). reflexivity.
Qed.

Lemma run_app (xs ys : list Input) (this : t) :
  run (xs ++ ys) this = run ys (run xs this).
Proof. unfold run. apply fold_left_app. Qed.

Lemma mine_nil_of_owned (s : nat) (c : Client.t) :
  Client.owned s c = 0%nat -> mine s c = [].
Proof. unfold Client.owned, mine. apply length_zero_iff_nil. Qed.

Lemma wiredAmong_step (s : nat) (b : Z) (w : WorldInput) (this : t) :
  wiredAmong s b this ->
  foreignTo s w ->
  wiredAmong s (b + budgetElsewhere [w]) (worldStep this w).
Proof.
  unfold wiredAmong. intros [S W] F. destruct w as [i | a]; cbn [worldStep budgetElsewhere].
  - replace (b + (0 + 0)) with b by lia. destruct (ended this) eqn:E.
    + rewrite (step_ended i this E), E. auto.
    + destruct W as (Wm & Wb & Wl).
      destruct (step_running i this E)
        as [(E' & _ & Hc & Hs & Hl & _) | (E' & _ & Hc & Hs & Hl & _)];
        rewrite E'.
      * rewrite Hc. repeat split; congruence.
      * rewrite Wl in Hc. subst s. rewrite Hc.
        destruct (onEnd_among this Wm) as [M B].
        repeat split; [exact Hs | exact M | lia | exact Hl].
  - assert (mine s (act a (client this)) = mine s (client this)) as M.
    { destruct a as [e l | e l | |]; cbn [act foreignTo] in *.
      - apply mine_on_foreign, F.
      - apply mine_removeListener_foreign, F.
      - reflexivity.
      - reflexivity. }
    assert (Client.maxListeners (act a (client this))
            = Client.maxListeners (client this)
              + budgetElsewhere [Elsewhere a]) as B.
    { destruct a; cbn; lia. }
    cbn [budgetElsewhere] in B. unfold set_client. cbn [self ended client endListener].
    rewrite M, B. split; [exact S |].
    destruct (ended this); destruct W as (Wm & Wb & Wl);
      repeat split; try assumption; lia.
Qed.

Lemma wiredAmong_run (s : nat) (ws : list WorldInput) (b : Z) (this : t) :
  wiredAmong s b this ->
  Forall (foreignTo s) ws ->
  wiredAmong s (b + budgetElsewhere ws) (runWorld ws this).
Proof.
  unfold runWorld. revert b this.
  induction ws as [| w ws IH]; intros b this W F; cbn [fold_left].
  - cbn [budgetElsewhere]. replace (b + 0) with b by lia. exact W.
  - inversion F as [| w' ws' Fw Fws]; subst.
    pose proof (IH _ _ (wiredAmong_step s b w this W Fw) Fws) as H.
    replace (b + budgetElsewhere (w :: ws))
      with (b + budgetElsewhere [w] + budgetElsewhere ws)
      by (cbn [budgetElsewhere]; lia).
    exact H.
Qed.

Lemma runWorld_app (xs ys : list WorldInput) (this : t) :
  runWorld (xs ++ ys) this = runWorld ys (runWorld xs this).
Proof. unfold runWorld. apply fold_left_app. Qed.

(** C7: the constructor adds to the client exactly its five listeners
    (message create, message delete, bulk delete, channel delete, guild
    delete) and one unit of listener budget; the one-shot "end" listener
    takes the five off and gives the unit back.  On a client shared with
    other parties, who register and remove listeners of their own and move
    the budget, the five listeners of a new instance stay registered while
    the collector runs; once it has ended, whatever ended it, none of its
    listeners is registered and its unit of budget was given back once. *)
Theorem listener_lifecycle :
  forall (c : Client.t) (s : nat) (ch : Channel.t) (o : CollectorOptions.t)
         (ws : list WorldInput),
    Client.owned s c = 0%nat ->
    Forall (foreignTo s) ws ->
    client (constructor c s ch o)
    = Client.mk (Client.listeners c ++ registrations s)
                (Client.maxListeners c + 1)
    /\ Client.owned s (client (constructor c s ch o)) = 5%nat
    /\ client (onEnd (constructor c s ch o)) = c
    /\ (ended (runWorld ws (constructor c s ch o)) = false ->
        mine s (client (runWorld ws (constructor c s ch o))) = registrations s
        /\ Client.maxListeners (client (runWorld ws (constructor c s ch o)))
           = Client.maxListeners c + budgetElsewhere ws + 1)
    /\ (ended (runWorld ws (constructor c s ch o)) = true ->
        Client.owned s (client (runWorld ws (constructor c s ch o))) = 0%nat
        /\ Client.maxListeners (client (runWorld ws (constructor c s ch o)))
           = Client.maxListeners c + budgetElsewhere ws)
    /\ (forall reason,
          ended (runWorld (ws ++ [Here (Stop reason)]) (constructor c s ch o))
          = true).
Proof.
  intros c s ch o ws Fresh Foreign.
  assert (client (constructor c s ch o)
          = Client.mk (Client.listeners c ++ registrations s)
                      (Client.maxListeners c + 1)) as C0.
  { unfold constructor, Client.on, Client.incrementMaxListeners. cbn.
    rewrite <- !app_assoc. reflexivity. }
  assert (Client.owned s (client (constructor c s ch o)) = 5%nat) as O0.
  { rewrite C0, owned_registrations.
    destruct c as [ls b]. unfold Client.owned in *. cbn [Client.listeners] in *.
    rewrite Fresh. reflexivity. }
  assert (wiredAmong s (Client.maxListeners c) (constructor c s ch o)) as W0.
  { unfold wiredAmong. cbn [self ended endListener constructor].
    fold (constructor c s ch o). rewrite C0.
    repeat split. unfold mine. cbn [Client.listeners].
    rewrite filter_app. fold (mine s c). rewrite (mine_nil_of_owned s c Fresh).
    unfold registrations. cbn. rewrite Nat.eqb_refl. reflexivity. }
  pose proof (wiredAmong_run s ws _ _ W0 Foreign) as [_ W].
  split; [exact C0 |].
  split; [exact O0 |].
  split; [apply onEnd_restores; exact C0 |].
  split; [| split].
  - intros E. rewrite E in W. destruct W as (Wm & Wb & _). split; [exact Wm | lia].
  - intros E. rewrite E in W. destruct W as (Wm & Wb & _).
    split; [| exact Wb]. unfold Client.owned. fold (mine s (client (runWorld ws (constructor c s ch o)))).
    rewrite Wm. reflexivity.
  - intros reason. rewrite runWorld_app. cbn [runWorld fold_left worldStep step].
    apply stop_ends.
Qed.

Lemma listener_lifecycle_witness :
  client (constructor busy 7 lobby (limits (Some 1) None))
  = Client.mk (Client.listeners busy ++ registrations 7)
              (Client.maxListeners busy + 1)
  /\ Client.owned 7 (client (constructor busy 7 lobby (limits (Some 1) None))) = 5%nat
  /\ client (onEnd (constructor busy 7 lobby (limits (Some 1) None))) = busy
  /\ (ended (runWorld shared (constructor busy 7 lobby (limits (Some 1) None))) = false ->
      mine 7 (client (runWorld shared (constructor busy 7 lobby (limits (Some 1) None))))
      = registrations 7
      /\ Client.maxListeners
           (client (runWorld shared (constructor busy 7 lobby (limits (Some 1) None))))
         = Client.maxListeners busy + budgetElsewhere shared + 1)
  /\ (ended (runWorld shared (constructor busy 7 lobby (limits (Some 1) None))) = true ->
      Client.owned 7
        (client (runWorld shared (constructor busy 7 lobby (limits (Some 1) None))))
      = 0%nat
      /\ Client.maxListeners
           (client (runWorld shared (constructor busy 7 lobby (limits (Some 1) None))))
         = Client.maxListeners busy + budgetElsewhere shared)
  /\ (forall reason,
        ended (runWorld (shared ++ [Here (Stop reason)])
                 (constructor busy 7 lobby (limits (Some 1) None)))
        = true).
Proof.
  apply (listener_lifecycle busy 7 lobby (limits (Some 1) None) shared).
  - reflexivity.
  - unfold shared. repeat constructor; cbn; lia.
Defined.

Example shared_client_after_end :
  ended (runWorld shared (constructor busy 7 lobby (limits (Some 1) None))) = true
  /\ client (runWorld shared (constructor busy 7 lobby (limits (Some 1) None)))
     = Client.mk
         [ (Events.MESSAGE_CREATE, Listener.mk 1 Listener.handleCollect);
           (Events.OTHER "ready", Listener.mk 2 (Listener.foreign "onReady"));
           (Events.MESSAGE_CREATE, Listener.mk 3 (Listener.foreign "log")) ]
         9.
Proof. vm_compute. split; reflexivity. Qed.

Example lifecycle_on_busy_client :
  Client.owned 7 busy = 0%nat
  /\ Client.owned 7 (client (constructor busy 7 lobby (limits (Some 1) None))) = 5%nat
  /\ Client.maxListeners (client (constructor busy 7 lobby (limits (Some 1) None))) = 11
  /\ client (run [Emit (MessageCreate (msg "1" "c"))]
               (constructor busy 7 lobby (limits (Some 1) None))) = busy
  /\ terminalReason (run [Emit (MessageCreate (msg "1" "c"))]
                       (constructor busy 7 lobby (limits (Some 1) None)))
     = Some "limit"
  /\ client (run [Emit (GuildDelete (Guild.mk "g"))]
               (constructor busy 7 lobby (limits None None))) = busy.
Proof. vm_compute. repeat split. Qed.

(** After the end no event of the client reaches the collector: its
    listeners are gone. *)
Example events_after_end_are_not_delivered :
  run [Stop "user"; Emit (MessageCreate (msg "1" "c"))]
      (constructor busy 7 lobby (limits None None))
  = run [Stop "user"] (constructor busy 7 lobby (limits None None)).
Proof. vm_compute. reflexivity. Qed.

(** The limits at work: the second of two accepted messages ends the
    collector with "limit" although the processed limit is reached too, and
    a message of another channel is not counted. *)
Example limit_precedence_run :
  terminalReason
    (run [Emit (MessageCreate (msg "1" "c")); Emit (MessageCreate (msg "9" "d"));
          Emit (MessageCreate (msg "2" "c"))]
       (constructor busy 7 lobby (limits (Some 2) (Some 2))))
  = Some "limit"
  /\ received
       (run [Emit (MessageCreate (msg "1" "c")); Emit (MessageCreate (msg "9" "d"));
             Emit (MessageCreate (msg "2" "c"))]
          (constructor busy 7 lobby (limits (Some 2) (Some 2))))
     = 2.
Proof. vm_compute. split; reflexivity. Qed.

End MessageCollectorFacts.

Module RoleManagerFacts.

Import RoleManager.

Lemma get_set_same {V : Type} (k : Snowflake) (v : V) (c : Collection.t V) :
  Collection.get k (Collection.set k v c) = Some v.
Proof.
  induction c as [| [k' v'] c IH]; cbn [Collection.set Collection.get].
  - rewrite String.eqb_refl. reflexivity.
  - destruct (String.eqb k k') eqn:E; cbn [Collection.get].
    + rewrite String.eqb_refl. reflexivity.
    + rewrite E. exact IH.
Qed.

Lemma get_set_other {V : Type} (k k' : Snowflake) (v : V) (c : Collection.t V) :
  k <> k' -> Collection.get k (Collection.set k' v c) = Collection.get k c.
Proof.
  intros N. induction c as [| [k'' v''] c IH]; cbn [Collection.set Collection.get].
  - apply String.eqb_neq in N. rewrite N. reflexivity.
  - destruct (String.eqb_spec k' k'') as [<- | N']; cbn [Collection.get].
    + apply String.eqb_neq in N. rewrite N. reflexivity.
    + rewrite IH. reflexivity.
Qed.

Section WithRole.

Variable Role : Type.
Variable super_add :
  RoleData -> bool -> Guild.t -> Collection.t Role -> Role * Collection.t Role.

(** The collection that the loop of [fetch] builds holds a key exactly for
    the identities found in the data (and the keys it started with). *)
Lemma addAll_has (data : list RoleData) (cache' : bool)
    (acc : Collection.t Role * RoleManager.t Role) (k : Snowflake) :
  Collection.has k
    (fst (fold_left
            (fun acc role =>
               let (r, this) := add super_add role cache' (snd acc) in
               (Collection.set (id role) r (fst acc), this))
            data acc))
  = Collection.has k (fst acc)
    || existsb (fun d => String.eqb (id d) k) data.
Proof.
  revert acc. induction data as [| d data IH]; intros acc; cbn [fold_left existsb].
  - rewrite orb_false_r. reflexivity.
  - rewrite IH. destruct (add super_add d cache' (snd acc)) as [r this'].
    cbn [fst]. unfold Collection.has.
    destruct (String.eqb_spec (id d) k) as [<- | N].
    + rewrite get_set_same. cbn [orb]. symmetry. apply orb_true_r.
    + rewrite get_set_other by congruence. reflexivity.
Qed.

Lemma addAll_absent (data : list RoleData) (cache' : bool)
    (this : RoleManager.t Role) (k : Snowflake) :
  (forall d, In d data -> id d <> k) ->
  Collection.get k (fst (addAll super_add data cache' this)) = None.
Proof.
  intros H. pose proof (addAll_has data cache' (Collection.empty, this) k) as A.
  fold (addAll super_add data cache' this) in A.
  assert (existsb (fun d => String.eqb (id d) k) data = false) as X.
  { destruct (existsb _ data) eqn:X; [| reflexivity].
    apply existsb_exists in X as (d & Hin & Hd).
    apply String.eqb_eq in Hd. exfalso. exact (H d Hin Hd). }
  rewrite X in A. unfold Collection.has in A. cbn [fst Collection.empty Collection.get] in A.
  destruct (Collection.get k (fst (addAll super_add data cache' this)));
    [discriminate | reflexivity].
Qed.

(** C10: [fetch] with an id and without force returns the cached role, and
    sends nothing to the API, when the cache holds the id; when the API is
    asked and answers, [fetch] resolves whatever the id: with an id to the
    role of that id among the fetched ones, and to null when there is none;
    without an id to the collection of all the fetched roles, which has a
    key for each identity of the data and no other. *)
Theorem fetch_resolves_missing_role_to_null :
  forall (s : Snowflake) (cache' force : option bool)
         (response : string + list RoleData) (data : list RoleData)
         (this : RoleManager.t Role),
    (forall role,
        s <> EmptyString ->
        JS.default false force = false ->
        Collection.get s (cache this) = Some role ->
        fetch super_add (Some s) cache' force response this
        = (Resolved (OneRole (Some role)), this)
        /\ requests (snd (fetch super_add (Some s) cache' force response this))
           = requests this)
    /\ (s <> EmptyString ->
        existing (Some s) (JS.default false force) this = None ->
        fst (fetch super_add (Some s) cache' force (inr data) this)
        = Resolved
            (OneRole
               (Collection.get s
                  (fst (addAll super_add data (JS.default true cache')
                          (mk (guild this) (cache this)
                              (requests this ++ [Guild.id (guild this)]))))))
        /\ ((forall d, In d data -> id d <> s) ->
            fst (fetch super_add (Some s) cache' force (inr data) this)
            = Resolved (OneRole None)))
    /\ (forall id', exists value,
          fst (fetch super_add id' cache' force (inr data) this)
          = Resolved value)
    /\ (exists roles,
          fst (fetch super_add None cache' force (inr data) this)
          = Resolved (AllRoles roles)
          /\ roles
             = fst (addAll super_add data (JS.default true cache')
                      (mk (guild this) (cache this)
                          (requests this ++ [Guild.id (guild this)])))
          /\ forall k,
               Collection.has k roles = true
               <-> exists d, In d data /\ id d = k).
Proof.
  intros s cache' force response data this.
  split; [| split; [| split]].
  - intros role Hs Hf Hc. unfold fetch, existing, JS.truthy_str.
    apply String.eqb_neq in Hs. rewrite Hs, Hf, Hc. cbn. auto.
  - intros Hs Hm.
    assert (fst (fetch super_add (Some s) cache' force (inr data) this)
            = Resolved
                (OneRole
                   (Collection.get s
                      (fst (addAll super_add data (JS.default true cache')
                              (mk (guild this) (cache this)
                                  (requests this ++ [Guild.id (guild this)]))))))) as F.
    { unfold fetch. rewrite Hm.
      destruct (addAll super_add data _ _) as [roles this'].
      unfold JS.truthy_str. apply String.eqb_neq in Hs. rewrite Hs. reflexivity. }
    split; [exact F |].
    intros Habs. rewrite F, (addAll_absent _ _ _ _ Habs). reflexivity.
  - intros id'. unfold fetch.
    destruct (existing id' (JS.default false force) this) as [role |].
    + eexists. reflexivity.
    + cbv zeta.
      match goal with
      | |- context [addAll super_add data ?c ?m] =>
          destruct (addAll super_add data c m) as [roles this']
      end.
      destruct id' as [k |]; [destruct (JS.truthy_str (Some k)) |];
        eexists; reflexivity.
  - eexists. split; [| split; [reflexivity |]].
    + unfold fetch. cbn [existing].
      destruct (addAll super_add data _ _) as [roles this']. reflexivity.
    + intros k. unfold addAll. rewrite addAll_has.
      cbn [fst Collection.empty Collection.has Collection.get orb].
      rewrite existsb_exists. split.
      * intros (d & Hin & Hd). apply String.eqb_eq in Hd. eauto.
      * intros (d & Hin & Hd). exists d. rewrite String.eqb_eq. auto.
Qed.

End WithRole.

Example fetch_cached_role :
  fetch plain_add (Some "1") None None (inl "unreachable") roles_of_g
  = (Resolved (OneRole (Some admin)), roles_of_g).
Proof. reflexivity. Qed.

Example fetch_missing_role :
  fetch plain_add (Some "5") None None (inr [admin; guest]) roles_of_g
  = (Resolved (OneRole None),
     RoleManager.mk (Guild.mk "g") [("1", admin); ("2", guest)] ["g"]).
Proof. reflexivity. Qed.

Example fetch_all_roles :
  fetch plain_add None None None (inr [admin; guest]) roles_of_g
  = (Resolved (AllRoles [("1", admin); ("2", guest)]),
     RoleManager.mk (Guild.mk "g") [("1", admin); ("2", guest)] ["g"]).
Proof. reflexivity. Qed.

Example fetch_forced :
  fetch plain_add (Some "1") (Some false) (Some true) (inr [guest]) roles_of_g
  = (Resolved (OneRole None), RoleManager.mk (Guild.mk "g") [("1", admin)] ["g"]).
Proof. reflexivity. Qed.

End RoleManagerFacts.

(** * Further properties of the message collector *)

Module MessageCollectorLaws.

Import MessageCollector.
Import MessageCollectorFacts.

(** Whether a message is of the collector's channel. *)
Definition inChannel (this : t) (m : Message.t) : bool :=
  String.eqb (Channel.id (Message.channel m)) (Channel.id (channel this)).

(** [collect] called on each message of a list in turn: the answers and the
    collector afterwards. *)
Fixpoint collectEach (l : list Message.t) (this : t)
    : list (option Snowflake) * t :=
  match l with
  | [] => ([], this)
  | m :: l =>
      let (r, this) := collect m this in
      let (rs, this) := collectEach l this in
      (r :: rs, this)
  end.

(** A mixed run of messages: three of channel "c", two of channel "d". *)
Definition traffic : list Message.t :=
  [msg "1" "c"; msg "8" "d"; msg "3" "c"; msg "9" "d"; msg "5" "c"].

(** A collector on a client whose listeners are given. *)
Definition onClient (s : nat) (ls : list (Events.t * Listener.t)) (b : Z) : t :=
  mk (Client.mk ls b) s (limits None None) lobby 0 [] false None true
     false false [].

Lemma set_received_same (this : t) : set_received (received this) this = this.
Proof. destruct this. reflexivity. Qed.

Lemma collect_as_set_received (m : Message.t) (this : t) :
  collect m this
  = (if inChannel this m then Some (Message.id m) else None,
     set_received (received this + (if inChannel this m then 1 else 0)) this).
Proof.
  unfold collect, inChannel. destruct (String.eqb _ _); cbn [negb].
  - reflexivity.
  - rewrite Z.add_0_r, set_received_same. reflexivity.
Qed.

(** [collect] over a run of messages answers each message of the channel
    with its identity and every other with null, and leaves the collector
    as it was but for received, which grew by the number of messages of the
    channel. *)
Theorem collectEach_counts_channel_messages :
  forall (l : list Message.t) (this : t),
    collectEach l this
    = (map (fun m => if inChannel this m then Some (Message.id m) else None) l,
       set_received
         (received this + Z.of_nat (List.length (filter (inChannel this) l)))
         this).
Proof.
  induction l as [| m l IH]; intros this; cbn [collectEach map filter].
  - cbn. rewrite Z.add_0_r, set_received_same. reflexivity.
  - rewrite collect_as_set_received, IH. f_equal.
    unfold inChannel, set_received. cbn.
    destruct (String.eqb (Channel.id (Message.channel m)) (Channel.id (channel this)));
      cbn [List.length]; f_equal; lia.
Qed.

Example collectEach_traffic :
  collectEach traffic (sample None None 4 two)
  = ([Some "1"; None; Some "3"; None; Some "5"], sample None None 7 two).
Proof. reflexivity. Qed.

(** [dispose] answers a message exactly as [collect] does, also after any
    number of messages were collected: what can be collected can be
    disposed of, under the same identity. *)
Theorem dispose_answers_as_collect :
  forall (l : list Message.t) (m : Message.t) (this : t),
    fst (dispose m this) = fst (collect m this)
    /\ fst (dispose m (snd (collectEach l this))) = fst (collect m this).
Proof.
  intros l m this. rewrite collectEach_counts_channel_messages.
  unfold dispose, collect, set_received. cbn.
  destruct (String.eqb _ _); auto.
Qed.

(** A negative max ends every state: the option is set, and no collection
    is smaller than it, so the getter answers "limit" from the start. *)
Theorem endReason_negative_max :
  forall (this : t) (m : Z),
    CollectorOptions.max (options this) = Some m ->
    m < 0 ->
    endReason this = Some "limit".
Proof.
  intros this m Hm Hneg. apply endReason_limit_iff. exists m.
  unfold Collection.size. repeat split; [exact Hm | lia | lia].
Qed.

Lemma endReason_negative_max_witness :
  endReason (sample (Some (-1)) None 0 []) = Some "limit".
Proof.
  apply (endReason_negative_max (sample (Some (-1)) None 0 []) (-1)).
  - reflexivity.
  - lia.
Defined.

(** Once the getter answers "limit" it keeps that answer in every state of
    the same options that has at least as many accepted items, whatever was
    received meanwhile. *)
Theorem endReason_limit_persists :
  forall (this later : t),
    options later = options this ->
    Collection.size (collected this) <= Collection.size (collected later) ->
    endReason this = Some "limit" ->
    endReason later = Some "limit".
Proof.
  intros this later Ho Hs H. apply endReason_limit_iff in H.
  destruct H as (m & Hm & Hz & Hle). apply endReason_limit_iff.
  exists m. rewrite Ho. repeat split; [exact Hm | exact Hz | lia].
Qed.

Lemma endReason_limit_persists_witness :
  endReason (sample (Some 2) (Some 9) 9 five) = Some "limit".
Proof.
  apply (endReason_limit_persists (sample (Some 2) (Some 9) 2 two)
           (sample (Some 2) (Some 9) 9 five)).
  - reflexivity.
  - cbn. lia.
  - reflexivity.
Defined.

(** The answer "processedLimit" lasts for one value of the counter: in a
    state that answers it, collecting one more message of the channel makes
    the getter answer null, and collecting a message of another channel
    changes nothing. *)
Theorem processedLimit_lost_by_next_collect :
  forall (this : t) (m : Message.t),
    endReason this = Some "processedLimit" ->
    (inChannel this m = true -> endReason (snd (collect m this)) = None)
    /\ (inChannel this m = false ->
        endReason (snd (collect m this)) = Some "processedLimit").
Proof.
  intros this m H. rewrite collect_as_set_received. cbn [snd]. split; intros C; rewrite C.
  - apply endReason_processedLimit_iff in H. destruct H as [NL (mp & Hmp & Hz & Hr)].
    apply endReason_null_iff. split.
    + intros (mx & Hx & Hxz & Hle). apply NL. exists mx. auto.
    + intros (mp' & Hmp' & _ & Hr'). cbn in Hmp', Hr'.
      rewrite Hmp in Hmp'. injection Hmp' as <-. lia.
  - rewrite Z.add_0_r, set_received_same. exact H.
Qed.

Lemma processedLimit_lost_by_next_collect_witness :
  (inChannel (sample None (Some 3) 3 two) (msg "7" "c") = true ->
   endReason (snd (collect (msg "7" "c") (sample None (Some 3) 3 two))) = None)
  /\ (inChannel (sample None (Some 3) 3 two) (msg "7" "c") = false ->
      endReason (snd (collect (msg "7" "c") (sample None (Some 3) 3 two)))
      = Some "processedLimit").
Proof.
  apply (processedLimit_lost_by_next_collect (sample None (Some 3) 3 two) (msg "7" "c")).
  reflexivity.
Defined.

(** ** The listeners of other instances *)

(** Neither the constructor nor the "end" listener touches a listener of
    another instance: the listeners of any other instance are on the client
    afterwards as before, in the same order, whatever the client holds. *)
Theorem other_instances_keep_their_listeners :
  forall (c : Client.t) (s : nat) (ch : Channel.t) (o : CollectorOptions.t)
         (this : t) (s' : nat),
    s' <> s ->
    s' <> self this ->
    mine s' (client (constructor c s ch o)) = mine s' c
    /\ mine s' (client (onEnd this)) = mine s' (client this).
Proof.
  intros c s ch o this s' N N'. split.
  - unfold constructor, Client.on, Client.incrementMaxListeners, mine. cbn.
    rewrite !filter_app. cbn.
    assert (Nat.eqb s s' = false) as -> by (apply Nat.eqb_neq; congruence).
    rewrite !app_nil_r. reflexivity.
  - unfold onEnd, set_client. cbn [client].
    unfold Client.decrementMaxListeners, mine at 1. cbn [Client.listeners].
    fold (mine s'
            (Client.removeListener Events.GUILD_DELETE
               (Listener.mk (self this) Listener._handleGuildDeletion)
               (Client.removeListener Events.CHANNEL_DELETE
                  (Listener.mk (self this) Listener._handleChannelDeletion)
                  (Client.removeListener Events.MESSAGE_BULK_DELETE
                     (Listener.mk (self this) Listener.bulkDeleteListener)
                     (Client.removeListener Events.MESSAGE_DELETE
                        (Listener.mk (self this) Listener.handleDispose)
                        (Client.removeListener Events.MESSAGE_CREATE
                           (Listener.mk (self this) Listener.handleCollect)
                           (client this))))))).
    rewrite !mine_removeListener_foreign by (cbn; congruence).
    reflexivity.
Qed.

Lemma other_instances_keep_their_listeners_witness :
  mine 1 (client (constructor busy 7 lobby (limits None None))) = mine 1 busy
  /\ mine 1 (client (onEnd (onClient 7 (Client.listeners busy ++ registrations 7) 11)))
     = mine 1 (client (onClient 7 (Client.listeners busy ++ registrations 7) 11)).
Proof.
  apply (other_instances_keep_their_listeners busy 7 lobby (limits None None)
           (onClient 7 (Client.listeners busy ++ registrations 7) 11) 1%nat).
  - cbn. lia.
  - cbn. lia.
Defined.

Lemma absent_of_not_mine (s : nat) (e : Events.t) (f : Listener.fn)
    (B : list (Events.t * Listener.t)) :
  filter (fun x => Nat.eqb (Listener.owner (snd x)) s) B = [] ->
  existsb (Client.entry_eqb (e, Listener.mk s f)) B = false.
Proof.
  intros H. destruct (existsb _ B) eqn:X; [| reflexivity].
  apply existsb_exists in X as (y & Hin & Hy). apply entry_eqb_eq in Hy. subst y.
  assert (In (e, Listener.mk s f)
             (filter (fun x => Nat.eqb (Listener.owner (snd x)) s) B)) as F.
  { apply filter_In. split; [exact Hin | cbn; apply Nat.eqb_refl]. }
  rewrite H in F. destruct F.
Qed.

(** The "end" listener takes out exactly the five registrations of its
    instance, wherever they stand among the listeners of the client: what
    was registered before them and what others registered after them stays,
    in order, and the budget goes down by one. *)
Theorem onEnd_removes_own_registrations :
  forall (this : t) (A B : list (Events.t * Listener.t)) (b : Z),
    client this = Client.mk (A ++ registrations (self this) ++ B) b ->
    filter (fun x => Nat.eqb (Listener.owner (snd x)) (self this)) B = [] ->
    client (onEnd this) = Client.mk (A ++ B) (b - 1).
Proof.
  intros this A B b Hc HB.
  pose proof (fun e f => absent_of_not_mine (self this) e f B HB) as Abs.
  unfold onEnd, set_client. cbn [client]. rewrite Hc.
  unfold registrations. cbn [app].
  repeat (rewrite removeListener_latest
            by (cbn [existsb Client.entry_eqb Events.eqb fst snd andb orb];
                apply Abs)).
  reflexivity.
Qed.

Lemma onEnd_removes_own_registrations_witness :
  client (onEnd (onClient 7 (Client.listeners busy ++ registrations 7
                             ++ registrations 8) 12))
  = Client.mk (Client.listeners busy ++ registrations 8) (12 - 1).
Proof.
  apply (onEnd_removes_own_registrations
           (onClient 7 (Client.listeners busy ++ registrations 7
                        ++ registrations 8) 12)
           (Client.listeners busy) (registrations 8) 12).
  - reflexivity.
  - reflexivity.
Defined.

End MessageCollectorLaws.

(** * Further properties of the role manager *)

Module RoleManagerLaws.

Import RoleManager.
Import RoleManagerFacts.

Lemma keys_set {V : Type} (k : Snowflake) (v : V) (c : Collection.t V) :
  map fst (Collection.set k v c)
  = if Collection.has k c then map fst c else map fst c ++ [k].
Proof.
  unfold Collection.has.
  induction c as [| [k' v'] c IH]; cbn [Collection.set Collection.get map fst app].
  - reflexivity.
  - destruct (String.eqb_spec k k') as [<- | N]; cbn [map fst].
    + reflexivity.
    + rewrite IH. destruct (Collection.get k c); reflexivity.
Qed.

Lemma has_in_keys {V : Type} (k : Snowflake) (c : Collection.t V) :
  Collection.has k c = false -> ~ In k (map fst c).
Proof.
  unfold Collection.has.
  induction c as [| [k' v'] c IH]; cbn [Collection.get map fst In]; [tauto |].
  destruct (String.eqb_spec k k') as [-> | N]; [discriminate |].
  intros H [E | Hin]; [congruence | exact (IH H Hin)].
Qed.

Lemma set_keeps_distinct_keys {V : Type} (k : Snowflake) (v : V)
    (c : Collection.t V) :
  NoDup (map fst c) -> NoDup (map fst (Collection.set k v c)).
Proof.
  intros H. rewrite keys_set. destruct (Collection.has k c) eqn:E; [exact H |].
  apply NoDup_app; [exact H | repeat constructor; intros [] |].
  intros x Hx [<- | []]. exact (has_in_keys _ _ E Hx).
Qed.

Lemma set_length {V : Type} (k : Snowflake) (v : V) (c : Collection.t V) :
  (List.length (Collection.set k v c) <= S (List.length c))%nat.
Proof.
  rewrite <- (length_map fst (Collection.set k v c)), keys_set, <- (length_map fst c).
  destruct (Collection.has k c); [lia |].
  rewrite length_app. cbn. lia.
Qed.

Section WithRole.

Variable Role : Type.
Variable super_add :
  RoleData -> bool -> Guild.t -> Collection.t Role -> Role * Collection.t Role.

(** What the loop of [fetch] keeps: the guild and the request log of the
    manager, distinct keys in the collection it builds, and no more entries
    than data. *)
Lemma addAll_invariants (data : list RoleData) (cache' : bool)
    (acc : Collection.t Role * RoleManager.t Role) :
  NoDup (map fst (fst acc)) ->
  let out :=
    fold_left
      (fun acc role =>
         let (r, this) := add super_add role cache' (snd acc) in
         (Collection.set (id role) r (fst acc), this))
      data acc in
  NoDup (map fst (fst out))
  /\ (List.length (fst out) <= List.length (fst acc) + List.length data)%nat
  /\ guild (snd out) = guild (snd acc)
  /\ requests (snd out) = requests (snd acc).
Proof.
  revert acc. induction data as [| d data IH]; intros acc H; cbn [fold_left].
  - cbn. repeat split; [exact H | lia].
  - destruct (add super_add d cache' (snd acc)) as [r this'] eqn:A.
    unfold add in A. destruct (super_add d cache' _ _) as [r' c'].
    injection A as <- <-.
    specialize (IH (Collection.set (id d) r' (fst acc),
                    mk (guild (snd acc)) c' (requests (snd acc)))
                   (set_keeps_distinct_keys _ _ _ H)).
    cbn [fst snd guild requests] in IH. destruct IH as (N & L & G & R).
    repeat split; [exact N | | exact G | exact R].
    pose proof (set_length (id d) r' (fst acc)). cbn [List.length]. lia.
Qed.

(** [fetch] rejects exactly when it asks the API and the API fails, and
    then with the API's error; the cache is as it was after a failure. *)
Theorem fetch_rejects_with_the_api_error :
  forall (id' : option Snowflake) (cache' force : option bool)
         (response : string + list RoleData) (e : string)
         (this : RoleManager.t Role),
    (fst (fetch super_add id' cache' force response this) = Rejected e
     <-> existing id' (JS.default false force) this = None /\ response = inl e)
    /\ (response = inl e ->
        cache (snd (fetch super_add id' cache' force response this)) = cache this).
Proof.
  intros id' cache' force response e this. unfold fetch.
  destruct (existing id' (JS.default false force) this) as [role |].
  - cbn. split; [split; [discriminate | intros [H _]; discriminate] | reflexivity].
  - destruct response as [e' | data].
    + cbn. split; [| reflexivity]. split.
      * intros H. injection H as ->. auto.
      * intros [_ H]. injection H as ->. reflexivity.
    + cbv zeta.
      match goal with
      | |- context [addAll super_add data ?c ?m] =>
          destruct (addAll super_add data c m) as [roles this']
      end.
      split; [| discriminate].
      destruct id' as [k |]; [destruct (JS.truthy_str (Some k)) |];
        (split; [discriminate | intros [_ H]; discriminate]).
Qed.

(** With force the cache is not consulted: for a cached id that the API no
    longer lists, the forced [fetch] asks the API once and resolves to null,
    where the unforced one resolves to the cached role. *)
Theorem fetch_forced_bypasses_the_cache :
  forall (s : Snowflake) (cache' : option bool) (data : list RoleData)
         (role : Role) (this : RoleManager.t Role),
    s <> EmptyString ->
    Collection.get s (cache this) = Some role ->
    (forall d, In d data -> id d <> s) ->
    fst (fetch super_add (Some s) cache' (Some true) (inr data) this)
    = Resolved (OneRole None)
    /\ requests (snd (fetch super_add (Some s) cache' (Some true) (inr data) this))
       = requests this ++ [Guild.id (guild this)]
    /\ fst (fetch super_add (Some s) cache' (Some false) (inr data) this)
       = Resolved (OneRole (Some role)).
Proof.
  intros s cache' data role this Hs Hc Habs.
  apply String.eqb_neq in Hs.
  split; [| split].
  - unfold fetch, existing, JS.truthy_str. rewrite Hs. cbn [negb andb JS.default].
    cbv zeta.
    pose proof (addAll_absent Role super_add data (JS.default true cache')
                  (mk (guild this) (cache this)
                      (requests this ++ [Guild.id (guild this)])) s Habs) as A.
    destruct (addAll super_add data _ _) as [roles this'].
    cbn [fst] in A |- *. rewrite A. reflexivity.
  - unfold fetch, existing, JS.truthy_str. rewrite Hs. cbn [negb andb JS.default].
    cbv zeta.
    pose proof (addAll_invariants data (JS.default true cache')
                  (Collection.empty,
                   mk (guild this) (cache this)
                      (requests this ++ [Guild.id (guild this)]))
                  (NoDup_nil _)) as (_ & _ & _ & R).
    fold (addAll super_add data (JS.default true cache')
            (mk (guild this) (cache this)
                (requests this ++ [Guild.id (guild this)]))) in R.
    destruct (addAll super_add data _ _) as [roles this'].
    cbn [snd requests] in R |- *. exact R.
  - unfold fetch, existing, JS.truthy_str. rewrite Hs, Hc. reflexivity.
Qed.

(** When the API is asked about an id and answers, [fetch] resolves to null
    exactly when no role of the answer has that id. *)
Theorem fetch_null_iff_absent :
  forall (s : Snowflake) (cache' force : option bool) (data : list RoleData)
         (this : RoleManager.t Role),
    s <> EmptyString ->
    existing (Some s) (JS.default false force) this = None ->
    (fst (fetch super_add (Some s) cache' force (inr data) this)
     = Resolved (OneRole None)
     <-> forall d, In d data -> id d <> s).
Proof.
  intros s cache' force data this Hs Hm. apply String.eqb_neq in Hs.
  unfold fetch. rewrite Hm. cbv zeta.
  pose proof (addAll_has Role super_add data (JS.default true cache')
                (Collection.empty,
                 mk (guild this) (cache this)
                    (requests this ++ [Guild.id (guild this)])) s) as A.
  fold (addAll super_add data (JS.default true cache')
          (mk (guild this) (cache this)
              (requests this ++ [Guild.id (guild this)]))) in A.
  destruct (addAll super_add data _ _) as [roles this'].
  unfold JS.truthy_str. rewrite Hs. cbn [negb fst] in A |- *.
  unfold Collection.has in A. cbn [Collection.empty Collection.get orb] in A.
  split.
  - intros H d Hin E.
    assert (existsb (fun d => String.eqb (id d) s) data = true) as X.
    { apply existsb_exists. exists d. split; [exact Hin | apply String.eqb_eq, E]. }
    rewrite X in A. destruct (Collection.get s roles); discriminate.
  - intros H.
    destruct (Collection.get s roles) as [r |]; [| reflexivity].
    symmetry in A. apply existsb_exists in A as (d & Hin & E).
    apply String.eqb_eq in E. exfalso. exact (H d Hin E).
Qed.

(** An empty string in the place of the id is no id: [fetch] then does
    all that it does without an id. *)
Theorem fetch_empty_id_is_no_id :
  forall (cache' force : option bool) (response : string + list RoleData)
         (this : RoleManager.t Role),
    fetch super_add (Some EmptyString) cache' force response this
    = fetch super_add None cache' force response this.
Proof.
  intros cache' force response this. unfold fetch. cbn [existing JS.truthy_str].
  cbn. destruct response as [e | data]; [reflexivity |].
  destruct (addAll super_add data _ _). reflexivity.
Qed.

(** Where the base manager's [add] leaves the cache alone when told not to
    cache, so does [fetch] with the cache flag false, whatever it fetches. *)
Theorem fetch_without_caching_keeps_the_cache :
  forall (id' : option Snowflake) (force : option bool)
         (response : string + list RoleData) (this : RoleManager.t Role),
    (forall d g c, snd (super_add d false g c) = c) ->
    cache (snd (fetch super_add id' (Some false) force response this))
    = cache this.
Proof.
  intros id' force response this Hadd.
  assert (forall data acc,
            cache (snd (fold_left
                          (fun acc role =>
                             let (r, this) := add super_add role false (snd acc) in
                             (Collection.set (id role) r (fst acc), this))
                          data acc))
            = cache (snd acc)) as L.
  { induction data as [| d data IH]; intros acc; cbn [fold_left]; [reflexivity |].
    rewrite IH. unfold add. specialize (Hadd d (guild (snd acc)) (cache (snd acc))).
    destruct (super_add d false _ _) as [r c]. cbn in Hadd |- *. exact Hadd. }
  unfold fetch. destruct (existing id' _ this); [reflexivity |].
  destruct response as [e | data]; [reflexivity |]. cbv zeta. cbn [JS.default].
  specialize (L data (Collection.empty,
                      mk (guild this) (cache this)
                         (requests this ++ [Guild.id (guild this)]))).
  fold (addAll super_add data false
          (mk (guild this) (cache this)
              (requests this ++ [Guild.id (guild this)]))) in L.
  destruct (addAll super_add data _ _) as [roles this'].
  cbn [snd cache] in L.
  destruct id' as [k |]; [destruct (JS.truthy_str (Some k)) |]; exact L.
Qed.

(** The collection that [fetch] without an id resolves to holds every
    identity once, also when the API lists an identity twice, and so has at
    most as many entries as the answer. *)
Theorem fetch_all_has_distinct_keys :
  forall (cache' force : option bool) (data : list RoleData)
         (this : RoleManager.t Role),
  exists roles,
    fst (fetch super_add None cache' force (inr data) this)
    = Resolved (AllRoles roles)
    /\ NoDup (map fst roles)
    /\ Collection.size roles <= Z.of_nat (List.length data).
Proof.
  intros cache' force data this. unfold fetch. cbn [existing]. cbv zeta.
  pose proof (addAll_invariants data (JS.default true cache')
                (Collection.empty,
                 mk (guild this) (cache this)
                    (requests this ++ [Guild.id (guild this)]))
                (NoDup_nil _)) as (N & L & _).
  fold (addAll super_add data (JS.default true cache')
          (mk (guild this) (cache this)
              (requests this ++ [Guild.id (guild this)]))) in N, L.
  destruct (addAll super_add data _ _) as [roles this'].
  exists roles. cbn [fst Collection.empty List.length] in N, L |- *.
  repeat split; [exact N |]. unfold Collection.size. lia.
Qed.

End WithRole.

Lemma fetch_forced_bypasses_the_cache_witness :
  fst (fetch plain_add (Some "1") None (Some true) (inr [guest]) roles_of_g)
  = Resolved (OneRole None)
  /\ requests (snd (fetch plain_add (Some "1") None (Some true) (inr [guest]) roles_of_g))
     = requests roles_of_g ++ [Guild.id (guild roles_of_g)]
  /\ fst (fetch plain_add (Some "1") None (Some false) (inr [guest]) roles_of_g)
     = Resolved (OneRole (Some admin)).
Proof.
  apply (fetch_forced_bypasses_the_cache RoleData plain_add "1" None [guest]
           admin roles_of_g).
  - discriminate.
  - reflexivity.
  - intros d [<- | []]. discriminate.
Defined.

Lemma fetch_null_iff_absent_witness :
  fst (fetch plain_add (Some "5") None None (inr [admin; guest]) roles_of_g)
  = Resolved (OneRole None)
  <-> forall d, In d [admin; guest] -> id d <> "5".
Proof.
  apply (fetch_null_iff_absent RoleData plain_add "5" None None [admin; guest]
           roles_of_g).
  - discriminate.
  - reflexivity.
Defined.

Lemma fetch_without_caching_keeps_the_cache_witness :
  cache (snd (fetch plain_add None (Some false) None (inr [admin; guest]) roles_of_g))
  = cache roles_of_g.
Proof.
  apply (fetch_without_caching_keeps_the_cache RoleData plain_add None None
           (inr [admin; guest]) roles_of_g).
  intros d g c. unfold plain_add. destruct (Collection.get (id d) c); reflexivity.
Defined.

Example fetch_listing_an_id_twice :
  fst (fetch plain_add None (Some false) None
         (inr [guest; mkData "2" "visitor"; admin]) roles_of_g)
  = Resolved (AllRoles [("2", mkData "2" "visitor"); ("1", admin)]).
Proof. reflexivity. Qed.

(** ** The getters *)

Import RoleManagerGetters.

(** What [find] finds: the first value, in insertion order, that the
    predicate accepts. *)
Lemma find_first_accepted {V : Type} (fn : V -> bool) (c : Collection.t V) :
  match CollectionSearch.find fn c with
  | Some v =>
      fn v = true
      /\ exists before k after,
           c = before ++ (k, v) :: after
           /\ forall e, In e before -> fn (snd e) = false
  | None => forall e, In e c -> fn (snd e) = false
  end.
Proof.
  induction c as [| [k v] c IH]; cbn [CollectionSearch.find].
  - intros e [].
  - destruct (fn v) eqn:F.
    + split; [exact F |]. exists [], k, c. split; [reflexivity | intros e []].
    + destruct (CollectionSearch.find fn c) as [w |].
      * destruct IH as (Fw & before & k' & after & -> & Hb).
        split; [exact Fw |]. exists ((k, v) :: before), k', after.
        split; [reflexivity |]. intros e [<- | Hin]; [exact F | exact (Hb e Hin)].
      * intros e [<- | Hin]; [exact F | exact (IH e Hin)].
Qed.

Section WithTags.

Variable Role : Type.
Variable tags : Role -> option RoleTags.
Variable comparePositionTo : Role -> Role -> Z.
Variable UserResolvable : Type.
Variable resolveID : UserResolvable -> option Snowflake.

(** The role carries the premium subscriber tag. *)
Definition isPremium (r : Role) : Prop :=
  exists t, tags r = Some t /\ premiumSubscriberRole_tag t = Some true.

(** The role is tagged as the role of bot [u]. *)
Definition isBotRoleOf (u : Snowflake) (r : Role) : Prop :=
  exists t, tags r = Some t /\ botID t = Some u.

Lemma premium_test (r : Role) :
  match tags r with
  | Some t => JS.default false (premiumSubscriberRole_tag t)
  | None => false
  end = true <-> isPremium r.
Proof.
  unfold isPremium. destruct (tags r) as [t |].
  - destruct (premiumSubscriberRole_tag t) as [[|] |] eqn:P; cbn; split;
      try discriminate; eauto;
      intros (t' & E & P'); injection E as <-; congruence.
  - split; [discriminate | intros (t & E & _); discriminate].
Qed.

Lemma bot_test (u : Snowflake) (r : Role) :
  match tags r, Some u with
  | Some t, Some u => JS.strict_eq_str u (botID t)
  | _, _ => false
  end = true <-> isBotRoleOf u r.
Proof.
  unfold isBotRoleOf. destruct (tags r) as [t |].
  - destruct (botID t) as [b |] eqn:B; cbn.
    + rewrite String.eqb_eq. split.
      * intros ->. eauto.
      * intros (t' & E & B'). injection E as <-. congruence.
    + split; [discriminate |]. intros (t' & E & B'). injection E as <-. congruence.
  - split; [discriminate | intros (t & E & _); discriminate].
Qed.

(** The [premiumSubscriberRole] getter gives the first cached role, in
    insertion order, that carries the premium subscriber tag, and null
    exactly when no cached role carries it. *)
Theorem premiumSubscriberRole_is_first_tagged :
  forall this : RoleManager.t Role,
    (forall r,
        premiumSubscriberRole tags this = Some r ->
        isPremium r
        /\ exists before k after,
             cache this = before ++ (k, r) :: after
             /\ forall e, In e before -> ~ isPremium (snd e))
    /\ (premiumSubscriberRole tags this = None
        <-> forall e, In e (cache this) -> ~ isPremium (snd e)).
Proof.
  intros this. unfold premiumSubscriberRole.
  pose proof (find_first_accepted
                (fun role =>
                   match tags role with
                   | Some t => JS.default false (premiumSubscriberRole_tag t)
                   | None => false
                   end) (cache this)) as F.
  destruct (CollectionSearch.find _ (cache this)) as [v |].
  - destruct F as (Fv & before & k & after & E & Hb).
    split.
    + intros r H. injection H as <-. split; [apply premium_test, Fv |].
      exists before, k, after. split; [exact E |].
      intros e Hin P. apply premium_test in P. rewrite (Hb e Hin) in P. discriminate.
    + split; [discriminate |]. intros H. exfalso.
      apply (H (k, v)); [rewrite E; apply in_elt | apply premium_test, Fv].
  - split; [discriminate |]. split; [| reflexivity].
    intros _ e Hin P. apply premium_test in P. rewrite (F e Hin) in P. discriminate.
Qed.

(** [botRoleFor] gives null for a user that does not resolve to an
    identity; for a user that resolves it gives the first cached role, in
    insertion order, that is tagged as that bot's role, and null exactly
    when no cached role is. *)
Theorem botRoleFor_is_first_role_of_the_bot :
  forall (user : UserResolvable) (this : RoleManager.t Role),
    (resolveID user = None \/ resolveID user = Some EmptyString ->
     botRoleFor tags resolveID user this = None)
    /\ (forall u,
          resolveID user = Some u ->
          u <> EmptyString ->
          (forall r,
              botRoleFor tags resolveID user this = Some r ->
              isBotRoleOf u r
              /\ exists before k after,
                   cache this = before ++ (k, r) :: after
                   /\ forall e, In e before -> ~ isBotRoleOf u (snd e))
          /\ (botRoleFor tags resolveID user this = None
              <-> forall e, In e (cache this) -> ~ isBotRoleOf u (snd e))).
Proof.
  intros user this. unfold botRoleFor. split.
  - intros [-> | ->]; reflexivity.
  - intros u Hu Hne. rewrite Hu. unfold JS.truthy_str.
    apply String.eqb_neq in Hne. rewrite Hne. cbn [negb].
    pose proof (find_first_accepted
                  (fun role =>
                     match tags role, Some u with
                     | Some t, Some u => JS.strict_eq_str u (botID t)
                     | _, _ => false
                     end) (cache this)) as F.
    destruct (CollectionSearch.find _ (cache this)) as [v |].
    + destruct F as (Fv & before & k & after & E & Hb).
      split.
      * intros r H. injection H as <-. split; [apply bot_test, Fv |].
        exists before, k, after. split; [exact E |].
        intros e Hin P. apply bot_test in P. rewrite (Hb e Hin) in P. discriminate.
      * split; [discriminate |]. intros H. exfalso.
        apply (H (k, v)); [rewrite E; apply in_elt | apply bot_test, Fv].
    + split; [discriminate |]. split; [| reflexivity].
      intros _ e Hin P. apply bot_test in P. rewrite (F e Hin) in P. discriminate.
Qed.

(** Folding the comparison of [highest] over roles gives one of them, and
    none of those folded in compares above it. *)
Lemma fold_highest (l : list Role) (a : Role) (seen : list Role) :
  (forall r, comparePositionTo r r <= 0) ->
  (forall x y z,
      comparePositionTo x y > 0 -> comparePositionTo y z > 0 ->
      comparePositionTo x z > 0) ->
  (forall r, In r seen -> comparePositionTo r a <= 0) ->
  In (fold_left
        (fun prev role => if comparePositionTo role prev >? 0 then role else prev)
        l a) (a :: l)
  /\ forall r,
       In r seen \/ In r l ->
       comparePositionTo r
         (fold_left
            (fun prev role => if comparePositionTo role prev >? 0 then role else prev)
            l a) <= 0.
Proof.
  intros Irr Tr. revert a seen.
  induction l as [| x l IH]; intros a seen Hs; cbn [fold_left].
  - split; [left; reflexivity |]. intros r [Hin | []]. exact (Hs r Hin).
  - destruct (Z.gtb_spec (comparePositionTo x a) 0) as [G | G].
    + destruct (IH x (x :: seen)) as [M B].
      { intros r [<- | Hin]; [apply Irr |].
        specialize (Hs r Hin).
        destruct (Z_le_gt_dec (comparePositionTo r x) 0) as [L | L]; [exact L |].
        assert (comparePositionTo r a > 0) by (apply (Tr r x a); lia). lia. }
      split.
      * destruct M as [<- | M]; [right; left; reflexivity | right; right; exact M].
      * intros r [Hin | [<- | Hin]]; apply B; cbn [In]; auto.
    + destruct (IH a (x :: seen)) as [M B].
      { intros r [<- | Hin]; [lia | exact (Hs r Hin)]. }
      split.
      * destruct M as [<- | M]; [left; reflexivity | right; right; exact M].
      * intros r [Hin | [<- | Hin]]; apply B; cbn [In]; auto.
Qed.

(** On a cache that is not empty, and with a comparison of positions that
    never puts a role above itself and is transitive, [highest] gives a
    cached role above which no cached role compares. *)
Theorem highest_is_not_below_any_role :
  forall this : RoleManager.t Role,
    cache this <> [] ->
    (forall r, comparePositionTo r r <= 0) ->
    (forall x y z,
        comparePositionTo x y > 0 -> comparePositionTo y z > 0 ->
        comparePositionTo x z > 0) ->
    exists m,
      highest comparePositionTo this = CollectionSearch.Returned m
      /\ In m (Collection.values (cache this))
      /\ forall r, In r (Collection.values (cache this)) ->
                   comparePositionTo r m <= 0.
Proof.
  intros this Hne Irr Tr. unfold highest.
  destruct (cache this) as [| [k v] c]; [congruence |].
  cbn [CollectionSearch.first CollectionSearch.reduce].
  destruct (fold_highest (Collection.values ((k, v) :: c)) v [] Irr Tr) as [M B].
  { intros r []. }
  eexists. split; [reflexivity |]. split.
  - destruct M as [<- | M]; [left; reflexivity | exact M].
  - intros r Hin. apply B. right. exact Hin.
Qed.

End WithTags.

Lemma highest_is_not_below_any_role_witness :
  exists m,
    highest byPosition staffed = CollectionSearch.Returned m
    /\ In m (Collection.values (cache staffed))
    /\ forall r, In r (Collection.values (cache staffed)) -> byPosition r m <= 0.
Proof.
  apply (highest_is_not_below_any_role PlainRole byPosition staffed).
  - discriminate.
  - intros r. unfold byPosition. lia.
  - intros x y z. unfold byPosition. lia.
Defined.

Example staffed_getters :
  highest byPosition staffed = CollectionSearch.Returned boosters
  /\ premiumSubscriberRole role_tags staffed = Some boosters
  /\ botRoleFor role_tags (fun u : Snowflake => Some u) "900" staffed = Some helper
  /\ botRoleFor role_tags (fun u : Snowflake => Some u) "901" staffed = None
  /\ everyone staffed = Some members.
Proof. repeat split. Qed.

Example highest_of_empty_cache :
  highest byPosition (RoleManager.mk (Guild.mk "10") [] [])
  = CollectionSearch.Threw
      "TypeError: Reduce of empty collection with no initial value".
Proof. reflexivity. Qed.

End RoleManagerLaws.
